(** * A shallow embedding of the worker pool of fpGo (worker/pool.go)

    The pool is a Go struct mutated through a pointer receiver by its
    methods, by one spawn-controller goroutine and by the worker
    goroutines.  The embedding keeps the struct as a record, threads
    it through a small state monad, and records every call the pool
    makes on its collaborators (task queue, signal mailbox, panic
    handler, goroutine launches) in a trace.  Concurrency is modelled
    by interleaving: a step of the system is one method call, one
    iteration of the spawn loop or one iteration of a worker loop. *)

From Stdlib Require Import String ZArith List Bool Lia.
Import ListNotations.
Open Scope Z_scope.

(* ================================================================= *)
(** * Part I: definitions *)
(* ================================================================= *)

(** ** Go's [int] on a 64-bit platform *)

Definition min_int : Z := - 2 ^ 63.
Definition max_int : Z := 2 ^ 63 - 1.

(** Two's-complement wrap-around of an arithmetic result. *)
Definition wrap (z : Z) : Z := (z + 2 ^ 63) mod 2 ^ 64 - 2 ^ 63.

Definition int_range (z : Z) : Prop := min_int <= z <= max_int.

(** ** time.Time and time.Duration (int64 nanoseconds) *)

Definition Time := Z.
Definition Duration := Z.
Definition Millisecond : Duration := 1000000.

(** ** Tasks, panics and handlers *)

(** The value carried by a panic, as [recover()] returns it. *)
Definition PanicValue := string.

(** What calling an opaque Go function does, as far as the pool can
    observe: it returns, or it panics with a value. *)
Inductive Outcome : Type :=
| Returns
| Panics (v : PanicValue).

(** A Go value of type [func()]: [None] is the nil function. *)
Definition func := option Outcome.

(** A Go value of type [func(interface{})] that is not nil. *)
Definition Handler := PanicValue -> Outcome.

(** [defaultPanicHandler]: two calls of [log.Printf]; it returns. *)
Definition defaultPanicHandler : Handler := fun _ => Returns.

(** ** Errors *)

(** The four errors declared in pool.go, and the two errors of the
    queue package that an offer can return. A Go [error] that is nil is
    [None : option error]. *)
Inductive error : Type :=
| ErrWorkerPoolIsEmpty
| ErrWorkerPoolIsFull
| ErrWorkerPoolIsClosed
| ErrWorkerPoolScheduleTimeout
| ErrQueueIsFull
| ErrQueueIsClosed.

(** ** The spawn-signal mailbox *)

(** Modelled from the spec: [fpgo.ChannelQueue[int]], the buffered
    channel behind [spawnWorkerCh], whose code is not part of
    pool.go.  §3 and §4.3: a mailbox of fixed capacity, a non-blocking
    offer that drops the signal when the mailbox is full, and a
    blocking receive. *)
Record ChannelQueue : Type := mkChan {
  chanBuf : list Z;
  chanCap : nat
}.

Definition NewChannelQueue (capacity : nat) : ChannelQueue :=
  {| chanBuf := []; chanCap := capacity |}.

Definition chan_Offer (v : Z) (ch : ChannelQueue) : option error * ChannelQueue :=
  if (length (chanBuf ch) <? chanCap ch)%nat
  then (None, {| chanBuf := chanBuf ch ++ [v]; chanCap := chanCap ch |})
  else (Some ErrQueueIsFull, ch).

(** [None]: the receive blocks. *)
Definition chan_recv (ch : ChannelQueue) : option (Z * ChannelQueue) :=
  match chanBuf ch with
  | [] => None
  | v :: rest => Some (v, {| chanBuf := rest; chanCap := chanCap ch |})
  end.

(** ** The task queue, as the pool consumes it *)

(** Modelled from the spec: [fpgo.BufferedChannelQueue[func()]], whose
    code is not part of pool.go.  §6 gives the capability the pool
    uses: [offer -> ok | Full | Closed], [count], [close], and a
    waitable source of tasks.  Every definition below is parametric in
    an implementation of this interface. *)
Class TaskQueue (Q : Type) : Type := {
  q_Offer : func -> Q -> option error * Q;
  q_Count : Q -> Z;
  q_Close : Q -> Q;
  (** receive on [GetChannel()]: [None] when the receive would block *)
  q_Recv : Q -> option (func * Q);
  q_Offer_errors : forall fn q e,
    fst (q_Offer fn q) = Some e -> e = ErrQueueIsFull \/ e = ErrQueueIsClosed
}.

(** Modelled from the spec: a bounded FIFO mailbox of tasks (§2:
    non-blocking offer that fails when full or closed; after close,
    offers fail and a receive never blocks). *)
Record BoundedQueue : Type := mkQueue {
  items : list func;
  bufferSizeMaximum : nat;
  queueClosed : bool
}.

Definition bq_Offer (fn : func) (q : BoundedQueue) : option error * BoundedQueue :=
  if queueClosed q then (Some ErrQueueIsClosed, q)
  else if (bufferSizeMaximum q <=? length (items q))%nat then (Some ErrQueueIsFull, q)
  else (None, {| items := items q ++ [fn];
                 bufferSizeMaximum := bufferSizeMaximum q;
                 queueClosed := false |}).

Definition bq_Count (q : BoundedQueue) : Z := Z.of_nat (length (items q)).

Definition bq_Close (q : BoundedQueue) : BoundedQueue :=
  {| items := items q; bufferSizeMaximum := bufferSizeMaximum q; queueClosed := true |}.

Definition bq_Recv (q : BoundedQueue) : option (func * BoundedQueue) :=
  match items q with
  | fn :: rest =>
      Some (fn, {| items := rest; bufferSizeMaximum := bufferSizeMaximum q;
                   queueClosed := queueClosed q |})
  | [] => if queueClosed q then Some (None, q) else None
  end.

#[export] Instance BoundedQueue_TaskQueue : TaskQueue BoundedQueue.
Proof.
  refine {| q_Offer := bq_Offer; q_Count := bq_Count;
            q_Close := bq_Close; q_Recv := bq_Recv |}.
  intros fn q e. unfold bq_Offer.
  destruct (queueClosed q); simpl.
  - intros [= <-]. now right.
  - destruct (bufferSizeMaximum q <=? length (items q))%nat; simpl.
    + intros [= <-]. now left.
    + discriminate.
Defined.

Definition NewBoundedQueue (capacity : nat) : BoundedQueue :=
  {| items := []; bufferSizeMaximum := capacity; queueClosed := false |}.

(** ** The Scaling Policy: the computation of [trySpawn] under its read lock *)

(** [d] is [jobQueue.Count()], [b] is [workerBatchSize], [s] is
    [workerSizeStandBy], [m] is [workerSizeMaximum].  Go's [/] and [%]
    truncate toward zero ([Z.quot], [Z.rem]); the divisor is at least
    1 here, so neither can overflow or divide by zero; [++] wraps. *)
Definition expectedWorkerCount (d b s m : Z) : Z :=
  let batchSize := if b <? 1 then 1 else b in
  let expected := Z.quot d batchSize in
  let expected := if Z.rem d batchSize >? 0 then wrap (expected + 1) else expected in
  let expected := if s >? expected then s else expected in
  let expected := if (m >? 0) && (expected >? m) then m else expected in
  expected.

(** The policy as §4.2 words it, to be compared with the code's. *)
Definition ceil_div (d b : Z) : Z := - ((- d) / b).

Definition scaling_policy_spec (d b s m : Z) : Z :=
  let b := Z.max b 1 in
  let target := ceil_div d b in
  let target := Z.max target s in
  if 0 <? m then Z.min target m else target.

(** ** The pool, its world and the monad of its methods *)

(** What the pool does to its collaborators, in the order it does it. *)
Inductive Event : Type :=
| EvQueueOffer (fn : func) (result : option error)  (* jobQueue.Offer(fn) *)
| EvQueueClose                                      (* jobQueue.Close() *)
| EvSignal (result : option error)                  (* spawnWorkerCh.Offer(1) *)
| EvGo                                              (* go func() { worker } () *)
| EvRun (body : Outcome)                            (* job() *)
| EvHandler (v : PanicValue)                        (* handler(panic) *)
| EvSleep (d : Duration).                           (* time.Sleep(d) *)

Inductive ControllerState : Type :=
| Running      (* the spawn loop waits for, or handles, a signal *)
| Stopped.     (* the spawn loop has left its [for range] *)

Section Pool.

Context {Q : Type} {TQ : TaskQueue Q}.

(** The struct [DefaultWorkerPool].  [lock] has no field: every step
    of the model is atomic.  [jobQueue] holds the state of the queue
    the pointer refers to. *)
Record DefaultWorkerPool : Type := mkPool {
  isClosed : bool;
  jobQueue : Q;
  workerCount : Z;
  spawnWorkerCh : ChannelQueue;
  lastAccessTime : Time;
  isJobQueueClosedWhenClose : bool;
  workerBatchSize : Z;
  workerSizeStandBy : Z;
  workerSizeMaximum : Z;
  spawnWorkerDuration : Duration;
  workerExpiryDuration : Duration;
  panicHandler : option Handler
}.

(** The pool together with what lives around it: the clock read by
    [time.Now()], the worker goroutines that are inside their run loop,
    the spawn-controller goroutine, and the trace of effects. *)
Record World : Type := mkWorld {
  self : DefaultWorkerPool;
  clock : Time;
  workers : nat;
  controller : ControllerState;
  trace : list Event
}.

(** Field assignments. *)
Definition set_isClosed (v : bool) (p : DefaultWorkerPool) :=
  mkPool v (jobQueue p) (workerCount p) (spawnWorkerCh p) (lastAccessTime p)
    (isJobQueueClosedWhenClose p) (workerBatchSize p) (workerSizeStandBy p)
    (workerSizeMaximum p) (spawnWorkerDuration p) (workerExpiryDuration p) (panicHandler p).
Definition set_jobQueue (v : Q) (p : DefaultWorkerPool) :=
  mkPool (isClosed p) v (workerCount p) (spawnWorkerCh p) (lastAccessTime p)
    (isJobQueueClosedWhenClose p) (workerBatchSize p) (workerSizeStandBy p)
    (workerSizeMaximum p) (spawnWorkerDuration p) (workerExpiryDuration p) (panicHandler p).
Definition set_workerCount (v : Z) (p : DefaultWorkerPool) :=
  mkPool (isClosed p) (jobQueue p) v (spawnWorkerCh p) (lastAccessTime p)
    (isJobQueueClosedWhenClose p) (workerBatchSize p) (workerSizeStandBy p)
    (workerSizeMaximum p) (spawnWorkerDuration p) (workerExpiryDuration p) (panicHandler p).
Definition set_spawnWorkerCh (v : ChannelQueue) (p : DefaultWorkerPool) :=
  mkPool (isClosed p) (jobQueue p) (workerCount p) v (lastAccessTime p)
    (isJobQueueClosedWhenClose p) (workerBatchSize p) (workerSizeStandBy p)
    (workerSizeMaximum p) (spawnWorkerDuration p) (workerExpiryDuration p) (panicHandler p).
Definition set_lastAccessTime (v : Time) (p : DefaultWorkerPool) :=
  mkPool (isClosed p) (jobQueue p) (workerCount p) (spawnWorkerCh p) v
    (isJobQueueClosedWhenClose p) (workerBatchSize p) (workerSizeStandBy p)
    (workerSizeMaximum p) (spawnWorkerDuration p) (workerExpiryDuration p) (panicHandler p).
Definition set_isJobQueueClosedWhenClose (v : bool) (p : DefaultWorkerPool) :=
  mkPool (isClosed p) (jobQueue p) (workerCount p) (spawnWorkerCh p) (lastAccessTime p)
    v (workerBatchSize p) (workerSizeStandBy p)
    (workerSizeMaximum p) (spawnWorkerDuration p) (workerExpiryDuration p) (panicHandler p).
Definition set_workerBatchSize (v : Z) (p : DefaultWorkerPool) :=
  mkPool (isClosed p) (jobQueue p) (workerCount p) (spawnWorkerCh p) (lastAccessTime p)
    (isJobQueueClosedWhenClose p) v (workerSizeStandBy p)
    (workerSizeMaximum p) (spawnWorkerDuration p) (workerExpiryDuration p) (panicHandler p).
Definition set_workerSizeStandBy (v : Z) (p : DefaultWorkerPool) :=
  mkPool (isClosed p) (jobQueue p) (workerCount p) (spawnWorkerCh p) (lastAccessTime p)
    (isJobQueueClosedWhenClose p) (workerBatchSize p) v
    (workerSizeMaximum p) (spawnWorkerDuration p) (workerExpiryDuration p) (panicHandler p).
Definition set_workerSizeMaximum (v : Z) (p : DefaultWorkerPool) :=
  mkPool (isClosed p) (jobQueue p) (workerCount p) (spawnWorkerCh p) (lastAccessTime p)
    (isJobQueueClosedWhenClose p) (workerBatchSize p) (workerSizeStandBy p)
    v (spawnWorkerDuration p) (workerExpiryDuration p) (panicHandler p).
Definition set_spawnWorkerDuration (v : Duration) (p : DefaultWorkerPool) :=
  mkPool (isClosed p) (jobQueue p) (workerCount p) (spawnWorkerCh p) (lastAccessTime p)
    (isJobQueueClosedWhenClose p) (workerBatchSize p) (workerSizeStandBy p)
    (workerSizeMaximum p) v (workerExpiryDuration p) (panicHandler p).
Definition set_workerExpiryDuration (v : Duration) (p : DefaultWorkerPool) :=
  mkPool (isClosed p) (jobQueue p) (workerCount p) (spawnWorkerCh p) (lastAccessTime p)
    (isJobQueueClosedWhenClose p) (workerBatchSize p) (workerSizeStandBy p)
    (workerSizeMaximum p) (spawnWorkerDuration p) v (panicHandler p).
Definition set_panicHandler (v : option Handler) (p : DefaultWorkerPool) :=
  mkPool (isClosed p) (jobQueue p) (workerCount p) (spawnWorkerCh p) (lastAccessTime p)
    (isJobQueueClosedWhenClose p) (workerBatchSize p) (workerSizeStandBy p)
    (workerSizeMaximum p) (spawnWorkerDuration p) (workerExpiryDuration p) v.

(** A method on [*DefaultWorkerPool] is a state transformer on the
    world with a result. *)
Definition M (A : Type) : Type := World -> A * World.

Definition ret {A : Type} (a : A) : M A := fun w => (a, w).

Definition bind {A B : Type} (c : M A) (k : A -> M B) : M B :=
  fun w => let (a, w') := c w in k a w'.

Notation "x <- c ;; k" := (bind c (fun x => k))
  (at level 61, c at next level, right associativity).
Notation "c ;; k" := (bind c (fun _ => k))
  (at level 61, right associativity).

Definition getPool : M DefaultWorkerPool := fun w => (self w, w).

Definition modifyPool (f : DefaultWorkerPool -> DefaultWorkerPool) : M unit :=
  fun w => (tt, mkWorld (f (self w)) (clock w) (workers w) (controller w) (trace w)).

Definition emit (e : Event) : M unit :=
  fun w => (tt, mkWorld (self w) (clock w) (workers w) (controller w) (trace w ++ [e])).

Definition time_Now : M Time := fun w => (clock w, w).

Definition time_Sleep (d : Duration) : M unit := emit (EvSleep d).

(** [for i := lo; i < hi; i++ { body }] for a body that does not use
    [i]: the body runs [hi - lo] times, not at all when [hi <= lo];
    [i++] cannot wrap, [i] staying below [hi]. *)
Fixpoint repeatM (n : nat) (body : M unit) : M unit :=
  match n with
  | O => ret tt
  | S n' => body ;; repeatM n' body
  end.

Definition for_range (lo hi : Z) (body : M unit) : M unit :=
  repeatM (Z.to_nat (hi - lo)) body.

(** *** Calls on the collaborators *)

Definition jobQueue_Offer (fn : func) : M (option error) :=
  p <- getPool ;;
  let (result, q') := q_Offer fn (jobQueue p) in
  modifyPool (set_jobQueue q') ;;
  emit (EvQueueOffer fn result) ;;
  ret result.

Definition jobQueue_Close : M unit :=
  modifyPool (fun p => set_jobQueue (q_Close (jobQueue p)) p) ;;
  emit EvQueueClose.

Definition spawnWorkerCh_Offer (v : Z) : M (option error) :=
  p <- getPool ;;
  let (result, ch') := chan_Offer v (spawnWorkerCh p) in
  modifyPool (set_spawnWorkerCh ch') ;;
  emit (EvSignal result) ;;
  ret result.

(** [go func() { ... }()]: one more worker goroutine is in its loop. *)
Definition go_worker : M unit :=
  fun w => (tt, mkWorld (self w) (clock w) (S (workers w)) (controller w) (trace w ++ [EvGo])).

(** The worker goroutine returns. *)
Definition thread_exit : M unit :=
  fun w => (tt, mkWorld (self w) (clock w) (pred (workers w)) (controller w) (trace w)).

Definition set_controller (c : ControllerState) : M unit :=
  fun w => (tt, mkWorld (self w) (clock w) (workers w) c (trace w)).

(** *** The methods of pool.go *)

(** The struct literal of [NewDefaultWorkerPool]; fields it does not
    name have Go's zero value. *)
Definition NewDefaultWorkerPool_struct (jobQueue : Q) : DefaultWorkerPool :=
  {| isClosed := false;
     jobQueue := jobQueue;
     workerCount := 0;
     spawnWorkerCh := NewChannelQueue 1;
     lastAccessTime := 0;
     isJobQueueClosedWhenClose := true;
     workerBatchSize := 5;
     workerSizeStandBy := 5;
     workerSizeMaximum := 1000;
     spawnWorkerDuration := 100 * Millisecond;
     workerExpiryDuration := 5000 * Millisecond;
     panicHandler := Some defaultPanicHandler |}.

(** [NewDefaultWorkerPool] called at time [now]: the struct, and
    [go workerPool.spawnLoop()]. *)
Definition NewDefaultWorkerPool (now : Time) (jobQueue : Q) : World :=
  {| self := NewDefaultWorkerPool_struct jobQueue;
     clock := now;
     workers := 0;
     controller := Running;
     trace := [] |}.

Definition generateWorker : M unit :=
  workerID <- time_Now ;;
  modifyPool (set_lastAccessTime workerID) ;;
  modifyPool (fun p => set_workerCount (wrap (workerCount p + 1)) p) ;;
  go_worker.

Definition trySpawn : M unit :=
  p <- getPool ;;
  let expected :=
    expectedWorkerCount (q_Count (jobQueue p)) (workerBatchSize p)
                        (workerSizeStandBy p) (workerSizeMaximum p) in
  p <- getPool ;;
  if workerCount p <? expected
  then for_range (workerCount p) expected generateWorker
  else ret tt.

Definition PreAllocWorkerSize (preAllocWorkerSize : Z) : M unit :=
  p <- getPool ;;
  for_range (workerCount p) preAllocWorkerSize generateWorker.

Definition IsClosed : M bool :=
  p <- getPool ;; ret (isClosed p).

Definition notifyWorkers : M unit :=
  p <- getPool ;;
  if (workerCount p <? workerSizeStandBy p) || (q_Count (jobQueue p) >? 0)
  then spawnWorkerCh_Offer 1 ;; ret tt
  else ret tt.

(** The setters return [workerPoolSelf]: the receiver, as it is after
    the assignment. *)
Definition SetJobQueue (jobQueue : Q) : M DefaultWorkerPool :=
  modifyPool (set_jobQueue jobQueue) ;;
  getPool.

Definition SetIsJobQueueClosedWhenClose (v : bool) : M DefaultWorkerPool :=
  modifyPool (set_isJobQueueClosedWhenClose v) ;;
  getPool.

Definition SetPanicHandler (panicHandler : option Handler) : M DefaultWorkerPool :=
  modifyPool (set_panicHandler panicHandler) ;;
  getPool.

Definition SetWorkerBatchSize (workerBatchSize : Z) : M DefaultWorkerPool :=
  modifyPool (set_workerBatchSize workerBatchSize) ;;
  notifyWorkers ;;
  getPool.

Definition SetWorkerSizeStandBy (workerSizeStandBy : Z) : M DefaultWorkerPool :=
  modifyPool (set_workerSizeStandBy workerSizeStandBy) ;;
  notifyWorkers ;;
  getPool.

Definition SetWorkerSizeMaximum (workerSizeMaximum : Z) : M DefaultWorkerPool :=
  modifyPool (set_workerSizeMaximum workerSizeMaximum) ;;
  notifyWorkers ;;
  getPool.

Definition SetSpawnWorkerDuration (spawnWorkerDuration : Duration) : M DefaultWorkerPool :=
  modifyPool (set_spawnWorkerDuration spawnWorkerDuration) ;;
  getPool.

Definition SetWorkerExpiryDuration (workerExpiryDuration : Duration) : M DefaultWorkerPool :=
  modifyPool (set_workerExpiryDuration workerExpiryDuration) ;;
  notifyWorkers ;;
  getPool.

Definition Close : M unit :=
  closed <- IsClosed ;;
  if closed then ret tt
  else
    modifyPool (set_isClosed true) ;;
    p <- getPool ;;
    if isJobQueueClosedWhenClose p then jobQueue_Close else ret tt.

(** The deferred [spawnWorkerCh.Offer(1)] runs after the result of
    [jobQueue.Offer(fn)] has been computed. *)
Definition Schedule (fn : func) : M (option error) :=
  closed <- IsClosed ;;
  if closed then ret (Some ErrWorkerPoolIsClosed)
  else
    result <- jobQueue_Offer fn ;;
    spawnWorkerCh_Offer 1 ;;
    ret result.

Definition ScheduleWithTimeout (fn : func) (timeout : Duration) : M (option error) :=
  closed <- IsClosed ;;
  if closed then ret (Some ErrWorkerPoolIsClosed)
  else
    result <- jobQueue_Offer fn ;;
    spawnWorkerCh_Offer 1 ;;
    ret result.

(** *** The spawn loop *)

(** What one attempt of the spawn loop to take a signal comes to. *)
Inductive LoopStep : Type :=
| Waiting     (* the mailbox is empty: [for range] blocks *)
| Evaluated   (* a signal was taken, [trySpawn] ran, the loop slept *)
| Left.       (* a signal was taken and the pool was closed: [break] *)

(** One turn of [for range workerPoolSelf.spawnWorkerCh { ... }]. *)
Definition spawnLoop_iteration : M LoopStep :=
  p <- getPool ;;
  match chan_recv (spawnWorkerCh p) with
  | None => ret Waiting
  | Some (_, ch') =>
      modifyPool (set_spawnWorkerCh ch') ;;
      closed <- IsClosed ;;
      if closed then set_controller Stopped ;; ret Left
      else
        trySpawn ;;
        p <- getPool ;;
        time_Sleep (spawnWorkerDuration p) ;;
        ret Evaluated
  end.

(** *** The worker goroutine of [generateWorker] *)

(** Which case of the worker's [select] is taken: a receive on the
    queue's channel delivering [job], or the timer of
    [time.After(workerExpiryDuration)]. *)
Inductive SelectEvent : Type :=
| RecvJob (job : func)
| TimerFired.

(** How control leaves the [for] loop: [break loopLabel], or a panic
    unwinding the goroutine's function. *)
Inductive LoopExit : Type :=
| BreakLoop
| Panicking (v : PanicValue).

(** One iteration of the loop; [None]: the loop goes on. *)
Definition worker_iteration (ev : SelectEvent) : M (option LoopExit) :=
  now <- time_Now ;;
  modifyPool (set_lastAccessTime now) ;;
  match ev with
  | RecvJob job =>
      match job with
      | Some body =>
          emit (EvRun body) ;;
          match body with
          | Returns => ret None
          | Panics v => ret (Some (Panicking v))
          end
      | None => ret None
      end
  | TimerFired =>
      p <- getPool ;;
      let workerCount := workerCount p in
      if (workerCount >? workerSizeStandBy p) || (workerCount >? workerSizeMaximum p)
      then ret (Some BreakLoop)
      else ret None
  end.

(** How the goroutine ends once it has left the loop. *)
Inductive ThreadEnd : Type :=
| Terminated                (* the deferred function returned *)
| Aborted (v : PanicValue). (* the handler panicked inside the deferred
                               function: nothing recovers it, the Go
                               runtime ends the process *)

(** The deferred function ("Recover & Recycle"). *)
Definition worker_deferred (exit : LoopExit) : M ThreadEnd :=
  handled <-
    match exit with
    | Panicking v =>
        p <- getPool ;;
        match panicHandler p with
        | Some handler => emit (EvHandler v) ;; ret (handler v)
        | None => ret Returns
        end
    | BreakLoop => ret Returns
    end ;;
  match handled with
  | Panics v' => ret (Aborted v')
  | Returns =>
      modifyPool (fun p => set_workerCount (wrap (workerCount p - 1)) p) ;;
      thread_exit ;;
      ret Terminated
  end.

(** Where a worker is after one more [select]. *)
Inductive WorkerStatus : Type :=
| Active
| Retired
| ProcessAborted (v : PanicValue).

Definition worker_step (ev : SelectEvent) : M WorkerStatus :=
  exit <- worker_iteration ev ;;
  match exit with
  | None => ret Active
  | Some e =>
      fin <- worker_deferred e ;;
      match fin with
      | Terminated => ret Retired
      | Aborted v => ret (ProcessAborted v)
      end
  end.

(** The whole goroutine, run against the [select] outcomes [evs]:
    [Active] when it is still in its loop once they are used up. *)
Fixpoint worker_thread (evs : list SelectEvent) : M WorkerStatus :=
  match evs with
  | [] => ret Active
  | ev :: evs' =>
      st <- worker_step ev ;;
      match st with
      | Active => worker_thread evs'
      | _ => ret st
      end
  end.

(** ** The system: callers, spawn controller and workers interleaved *)

Inductive Action : Type :=
| CallSchedule (fn : func)
| CallScheduleWithTimeout (fn : func) (timeout : Duration)
| CallClose
| CallPreAllocWorkerSize (n : Z)
| CallSetJobQueue (q : Q)
| CallSetIsJobQueueClosedWhenClose (v : bool)
| CallSetPanicHandler (h : option Handler)
| CallSetWorkerBatchSize (v : Z)
| CallSetWorkerSizeStandBy (v : Z)
| CallSetWorkerSizeMaximum (v : Z)
| CallSetSpawnWorkerDuration (v : Duration)
| CallSetWorkerExpiryDuration (v : Duration)
| SpawnLoopTurn           (* the spawn loop takes a signal *)
| WorkerReceives          (* some worker's select takes the queue case *)
| WorkerTimerFires        (* some worker's select takes the timer case *)
| ClockTick (dt : Z).     (* time passes *)

Inductive StepResult : Type :=
| Next (w : World)
| NotEnabled                   (* the action cannot happen in this world *)
| ProcessEnds (v : PanicValue).

Definition after_worker (r : WorkerStatus * World) : StepResult :=
  match fst r with
  | ProcessAborted v => ProcessEnds v
  | _ => Next (snd r)
  end.

Definition step (a : Action) (w : World) : StepResult :=
  match a with
  | CallSchedule fn => Next (snd (Schedule fn w))
  | CallScheduleWithTimeout fn t => Next (snd (ScheduleWithTimeout fn t w))
  | CallClose => Next (snd (Close w))
  | CallPreAllocWorkerSize n => Next (snd (PreAllocWorkerSize n w))
  | CallSetJobQueue q => Next (snd (SetJobQueue q w))
  | CallSetIsJobQueueClosedWhenClose v => Next (snd (SetIsJobQueueClosedWhenClose v w))
  | CallSetPanicHandler h => Next (snd (SetPanicHandler h w))
  | CallSetWorkerBatchSize v => Next (snd (SetWorkerBatchSize v w))
  | CallSetWorkerSizeStandBy v => Next (snd (SetWorkerSizeStandBy v w))
  | CallSetWorkerSizeMaximum v => Next (snd (SetWorkerSizeMaximum v w))
  | CallSetSpawnWorkerDuration v => Next (snd (SetSpawnWorkerDuration v w))
  | CallSetWorkerExpiryDuration v => Next (snd (SetWorkerExpiryDuration v w))
  | SpawnLoopTurn =>
      match controller w with
      | Stopped => NotEnabled
      | Running =>
          match spawnLoop_iteration w with
          | (Waiting, _) => NotEnabled
          | (_, w') => Next w'
          end
      end
  | WorkerReceives =>
      match workers w with
      | O => NotEnabled
      | S _ =>
          match q_Recv (jobQueue (self w)) with
          | None => NotEnabled
          | Some (job, q') =>
              after_worker (worker_step (RecvJob job) (snd (modifyPool (set_jobQueue q') w)))
          end
      end
  | WorkerTimerFires =>
      match workers w with
      | O => NotEnabled
      | S _ => after_worker (worker_step TimerFired w)
      end
  | ClockTick dt =>
      if dt <? 0 then NotEnabled
      else Next (mkWorld (self w) (clock w + dt) (workers w) (controller w) (trace w))
  end.

(** Running a schedule of actions; it stops at the first action that
    is not enabled or that ends the process. *)
Fixpoint run (acts : list Action) (w : World) : StepResult :=
  match acts with
  | [] => Next w
  | a :: acts' =>
      match step a w with
      | Next w' => run acts' w'
      | r => r
      end
  end.

(** The worlds the system can be in. *)
Inductive reachable : World -> Prop :=
| reachable_new : forall now q, reachable (NewDefaultWorkerPool now q)
| reachable_step : forall a w w', reachable w -> step a w = Next w' -> reachable w'.

(** How often the panic handler was called, and how many signals were
    offered, in a piece of trace. *)
Definition is_handler_call (e : Event) : bool :=
  match e with EvHandler _ => true | _ => false end.

Definition is_signal (e : Event) : bool :=
  match e with EvSignal _ => true | _ => false end.

Definition is_queue_call (e : Event) : bool :=
  match e with EvQueueOffer _ _ | EvQueueClose => true | _ => false end.

Definition count_events (f : Event -> bool) (t : list Event) : nat :=
  length (filter f t).

(** ** Closed forms used to state the theorems *)

(** The world after [n] calls of [generateWorker] in a row. *)
Definition launched (n : nat) (w : World) : World :=
  match n with
  | O => w
  | S _ =>
      mkWorld
        (set_workerCount (wrap (workerCount (self w) + Z.of_nat n))
           (set_lastAccessTime (clock w) (self w)))
        (clock w) (n + workers w)%nat (controller w) (trace w ++ repeat EvGo n)
  end.

(** The condition under which [notifyWorkers] offers a signal. *)
Definition wants_workers (p : DefaultWorkerPool) : bool :=
  (workerCount p <? workerSizeStandBy p) || (q_Count (jobQueue p) >? 0).

(** The world after [notifyWorkers], the pool being [w]'s. *)
Definition notified (w : World) : World :=
  if wants_workers (self w)
  then mkWorld (set_spawnWorkerCh (snd (chan_Offer 1 (spawnWorkerCh (self w)))) (self w))
         (clock w) (workers w) (controller w)
         (trace w ++ [EvSignal (fst (chan_Offer 1 (spawnWorkerCh (self w))))])
  else w.

(** The world after [Schedule fn] on an open pool: the queue after the
    offer, the mailbox after the signal, and both calls in the trace. *)
Definition scheduled (fn : func) (w : World) : World :=
  mkWorld
    (set_spawnWorkerCh (snd (chan_Offer 1 (spawnWorkerCh (self w))))
       (set_jobQueue (snd (q_Offer fn (jobQueue (self w)))) (self w)))
    (clock w) (workers w) (controller w)
    (trace w ++ [EvQueueOffer fn (fst (q_Offer fn (jobQueue (self w))));
                 EvSignal (fst (chan_Offer 1 (spawnWorkerCh (self w))))]).

(** The world after [Close] on an open pool. *)
Definition shut (w : World) : World :=
  if isJobQueueClosedWhenClose (self w)
  then mkWorld (set_jobQueue (q_Close (jobQueue (self w))) (set_isClosed true (self w)))
         (clock w) (workers w) (controller w) (trace w ++ [EvQueueClose])
  else mkWorld (set_isClosed true (self w))
         (clock w) (workers w) (controller w) (trace w).

(** The mailbox of a pool built by [NewDefaultWorkerPool]: capacity 1,
    holding no signal or one. *)
Definition mailbox_ok (ch : ChannelQueue) : Prop :=
  chanCap ch = 1%nat /\ (chanBuf ch = [] \/ chanBuf ch = [1]).

(** The counter agrees with the number of workers in their loop. *)
Definition count_ok (w : World) : Prop :=
  workerCount (self w) = wrap (Z.of_nat (workers w)).

Definition Inv (w : World) : Prop :=
  mailbox_ok (spawnWorkerCh (self w)) /\ count_ok w.

(** The result of a schedule of actions that runs to its end. *)
Definition world_of (r : StepResult) : option World :=
  match r with
  | Next w => Some w
  | _ => None
  end.

End Pool.

Arguments DefaultWorkerPool Q : clear implicits.
Arguments World Q : clear implicits.
Arguments Action Q : clear implicits.
Arguments StepResult Q : clear implicits.

(** ** Two pools over the bounded queue, for the examples *)

(** A pool just built over an empty queue of capacity 64. *)
Definition fresh_pool : World BoundedQueue :=
  NewDefaultWorkerPool 0 (NewBoundedQueue 64).

(** The same pool once five workers are resident: the worker count has
    reached the default standby floor and the queue is empty. *)
Definition warm_pool : World BoundedQueue :=
  snd (PreAllocWorkerSize 5 fresh_pool).

(** [fresh_pool] after one submission: the task is queued and a
    signal is pending. *)
Definition signalled_pool : World BoundedQueue :=
  snd (Schedule (Some Returns) fresh_pool).

(** [signalled_pool] once closed, the signal still pending. *)
Definition closed_pool : World BoundedQueue :=
  snd (Close signalled_pool).


(** [warm_pool] after a task that panics was submitted and received
    by a worker. *)
Definition recovered_pool : World BoundedQueue :=
  match run [CallSchedule (Some (Panics "boom"%string)); WorkerReceives] warm_pool with
  | Next w => w
  | _ => warm_pool
  end.

(** [warm_pool] with the maximum set to 0. *)
Definition uncapped_pool : World BoundedQueue :=
  snd (SetWorkerSizeMaximum 0 warm_pool).

(** ** Shapes of schedules and of what a worker receives *)

(** The target [trySpawn] computes from the pool as it stands. *)
Definition target_of {Q : Type} {TQ : TaskQueue Q} (p : DefaultWorkerPool Q) : Z :=
  expectedWorkerCount (q_Count (jobQueue p)) (workerBatchSize p)
                      (workerSizeStandBy p) (workerSizeMaximum p).

(** The setters that call [notifyWorkers]. *)
Definition is_sizing_setter {Q : Type} (a : Action Q) : bool :=
  match a with
  | CallSetWorkerBatchSize _
  | CallSetWorkerSizeStandBy _
  | CallSetWorkerSizeMaximum _
  | CallSetWorkerExpiryDuration _ => true
  | _ => false
  end.

(** The call of a task that panics. *)
Definition is_task_panic (e : Event) : bool :=
  match e with EvRun (Panics _) => true | _ => false end.

(** A received function that is nil or returns. *)
Definition never_panics (job : func) : bool :=
  match job with
  | Some (Panics _) => false
  | _ => true
  end.

(** The calls [job()] a worker makes for the functions it receives:
    none for a nil function. *)
Definition ran (jobs : list func) : list Event :=
  flat_map (fun job => match job with Some body => [EvRun body] | None => [] end) jobs.

(** ** The interface [WorkerPool] and the adapter [DefaultInvokable] *)

(** The Go interface [WorkerPool], over the state [P] of an
    implementation. *)
Class WorkerPool (P : Type) : Type := {
  wp_Close : P -> P;
  wp_IsClosed : P -> bool;
  wp_Schedule : func -> P -> option error * P;
  wp_ScheduleWithTimeout : func -> Duration -> P -> option error * P
}.

(** [*DefaultWorkerPool] implements it. *)
#[export] Instance DefaultWorkerPool_WorkerPool {Q : Type} {TQ : TaskQueue Q} :
  WorkerPool (World Q) := {
  wp_Close := fun w => snd (Close w);
  wp_IsClosed := fun w => fst (IsClosed w);
  wp_Schedule := Schedule;
  wp_ScheduleWithTimeout := ScheduleWithTimeout
}.

(** Assignment through a pointer into a store of objects; a store has
    no cell outside its length. *)
Fixpoint set_nth {A : Type} (n : nat) (x : A) (l : list A) : list A :=
  match l, n with
  | [], _ => []
  | _ :: rest, O => x :: rest
  | y :: rest, S n' => y :: set_nth n' x rest
  end.

Section Invokable.

Context {T : Type} {P : Type} {WP : WorkerPool P}.

(** The struct [DefaultInvokable[T]].  [workerPool] is an interface
    value: nil, or the address of a pool in the store of pools;
    [callee] is a [func(T)], nil or not. *)
Record DefaultInvokable : Type := mkInvokable {
  workerPool : option nat;
  callee : option (T -> Outcome)
}.

Definition NewDefaultInvokable (workerPool : option nat) (callee : option (T -> Outcome))
  : DefaultInvokable :=
  {| workerPool := workerPool; callee := callee |}.

Definition SetWorkerPool (workerPool : option nat) (inv : DefaultInvokable)
  : DefaultInvokable :=
  {| workerPool := workerPool; callee := callee inv |}.

Definition SetCallee (callee : option (T -> Outcome)) (inv : DefaultInvokable)
  : DefaultInvokable :=
  {| workerPool := workerPool inv; callee := callee |}.

(** The function literal [func() { callee(val) }]: never nil; calling
    a nil [callee] inside it is a run-time panic. *)
Definition closure (callee : option (T -> Outcome)) (val : T) : func :=
  Some match callee with
       | Some f => f val
       | None => Panics "invalid memory address or nil pointer dereference"%string
       end.

(** [Invoke]: the error of [Schedule] is dropped.  [None]: the call
    itself panics, [workerPool] being nil. *)
Definition Invoke (inv : DefaultInvokable) (val : T) (pools : list P) : option (list P) :=
  let callee := callee inv in
  match workerPool inv with
  | None => None
  | Some a =>
      match nth_error pools a with
      | None => None
      | Some p => Some (set_nth a (snd (wp_Schedule (closure callee val) p)) pools)
      end
  end.

Definition InvokeWithTimeout (inv : DefaultInvokable) (val : T) (timeout : Duration)
  (pools : list P) : option (option error * list P) :=
  let callee := callee inv in
  match workerPool inv with
  | None => None
  | Some a =>
      match nth_error pools a with
      | None => None
      | Some p =>
          let r := wp_ScheduleWithTimeout (closure callee val) timeout p in
          Some (fst r, set_nth a (snd r) pools)
      end
  end.

End Invokable.

Arguments DefaultInvokable T : clear implicits.

(* ================================================================= *)
(** * Part II: theorems *)
(* ================================================================= *)

(** ** Machine arithmetic *)

Lemma wrap_small : forall z, int_range z -> wrap z = z.
Proof.
  intros z [Hlo Hhi]. unfold wrap, min_int, max_int in *.
  rewrite Z.mod_small by lia. lia.
Qed.

Lemma wrap_wrap_add : forall a b, wrap (wrap a + b) = wrap (a + b).
Proof.
  intros a b. unfold wrap.
  replace ((a + 2 ^ 63) mod 2 ^ 64 - 2 ^ 63 + b + 2 ^ 63)
    with ((a + 2 ^ 63) mod 2 ^ 64 + b) by lia.
  rewrite Zplus_mod_idemp_l. do 2 f_equal. lia.
Qed.

Lemma wrap_range : forall z, int_range (wrap z).
Proof.
  intros z. unfold wrap, int_range, min_int, max_int.
  pose proof (Z.mod_pos_bound (z + 2 ^ 63) (2 ^ 64) ltac:(lia)). lia.
Qed.

Lemma wrap_wrap_sub : forall a b, wrap (wrap a - b) = wrap (a - b).
Proof. intros a b. unfold Z.sub. apply wrap_wrap_add. Qed.

#[global] Opaque wrap.

(** ** The Scaling Policy *)

(** [ceil_div d b] is the ceiling of [d / b]: the least [q] with
    [d <= b * q]. *)
Lemma ceil_div_spec : forall d b, 0 < b ->
  b * (ceil_div d b - 1) < d <= b * ceil_div d b.
Proof.
  intros d b Hb. unfold ceil_div.
  pose proof (Z.div_mod (- d) b ltac:(lia)) as Hdm.
  pose proof (Z.mod_pos_bound (- d) b Hb) as Hm.
  nia.
Qed.

Lemma ceil_div_quot : forall d b, 0 <= d -> 0 < b ->
  ceil_div d b = if Z.rem d b >? 0 then Z.quot d b + 1 else Z.quot d b.
Proof.
  intros d b Hd Hb.
  rewrite Z.rem_mod_nonneg, Z.quot_div_nonneg by lia.
  pose proof (ceil_div_spec d b Hb) as Hc.
  pose proof (Z.div_mod d b ltac:(lia)) as Hdm.
  pose proof (Z.mod_pos_bound d b Hb) as Hm.
  destruct (d mod b >? 0) eqn:E; [apply Z.gtb_lt in E | rewrite Z.gtb_ltb, Z.ltb_ge in E]; nia.
Qed.

Lemma quot_succ_in_range : forall d b, 0 <= d <= max_int -> 1 <= b ->
  Z.rem d b > 0 -> int_range (Z.quot d b + 1).
Proof.
  intros d b Hd Hb Hr.
  rewrite Z.rem_mod_nonneg in Hr by lia.
  rewrite Z.quot_div_nonneg by lia.
  pose proof (Z.div_mod d b ltac:(lia)) as Hdm.
  pose proof (Z.mod_pos_bound d b ltac:(lia)) as Hm.
  pose proof (Z.div_pos d b ltac:(lia) ltac:(lia)) as Hq.
  unfold int_range, min_int, max_int in *. nia.
Qed.

(** C1. For every queue depth [d >= 0] (a Go int), batch size [b],
    standby floor [s] and ceiling [m], the target that [trySpawn]
    computes is the one of §4.2: the ceiling of [d / b] with [b]
    floored to 1, raised to [s], then lowered to [m] when [m > 0].
    With d=23, b=5, s=2, m=10 the target is 5. *)
Theorem C1_scaling_policy : forall d b s m : Z,
  0 <= d <= max_int ->
  expectedWorkerCount d b s m = scaling_policy_spec d b s m
  /\ Z.max b 1 * (ceil_div d (Z.max b 1) - 1) < d <= Z.max b 1 * ceil_div d (Z.max b 1)
  /\ expectedWorkerCount 23 5 2 10 = 5.
Proof.
  intros d b s m Hd. split; [| split; [apply ceil_div_spec; lia | reflexivity]].
  unfold expectedWorkerCount, scaling_policy_spec.
  assert (Hb : (if b <? 1 then 1 else b) = Z.max b 1).
  { destruct (b <? 1) eqn:E; [apply Z.ltb_lt in E | apply Z.ltb_ge in E]; lia. }
  rewrite Hb. set (b' := Z.max b 1). assert (Hb' : 1 <= b') by (subst b'; lia).
  rewrite (ceil_div_quot d b') by lia.
  assert (Hw : (if Z.rem d b' >? 0 then wrap (Z.quot d b' + 1) else Z.quot d b')
               = (if Z.rem d b' >? 0 then Z.quot d b' + 1 else Z.quot d b')).
  { destruct (Z.rem d b' >? 0) eqn:E; [| reflexivity].
    apply wrap_small, quot_succ_in_range; lia. }
  rewrite Hw. set (e := if Z.rem d b' >? 0 then _ else _).
  assert (Hs : (if s >? e then s else e) = Z.max e s).
  { destruct (s >? e) eqn:E; [apply Z.gtb_lt in E | rewrite Z.gtb_ltb, Z.ltb_ge in E]; lia. }
  rewrite Hs. set (t := Z.max e s).
  rewrite Z.gtb_ltb.
  destruct (0 <? m) eqn:Em; simpl; [| reflexivity].
  destruct (t >? m) eqn:E; [apply Z.gtb_lt in E | rewrite Z.gtb_ltb, Z.ltb_ge in E]; lia.
Qed.

(** The scenario of §8 as a witness of C1. *)
Lemma C1_scaling_policy_witness :
  expectedWorkerCount 23 5 2 10 = scaling_policy_spec 23 5 2 10
  /\ Z.max 5 1 * (ceil_div 23 (Z.max 5 1) - 1) < 23 <= Z.max 5 1 * ceil_div 23 (Z.max 5 1)
  /\ expectedWorkerCount 23 5 2 10 = 5.
Proof.
  apply (C1_scaling_policy 23 5 2 10). unfold max_int. lia.
Defined.

(** ** What the methods do to the world *)

Section PoolFacts.

Context {Q : Type} {TQ : TaskQueue Q}.

Implicit Types (w : World Q) (p : DefaultWorkerPool Q).

Lemma generateWorker_launched : forall w, generateWorker w = (tt, launched 1 w).
Proof. reflexivity. Qed.

Lemma launched_S : forall n w, launched n (launched 1 w) = launched (S n) w.
Proof.
  intros [| k] w; [reflexivity |].
  unfold launched; simpl self; simpl clock; simpl workers; simpl controller; simpl trace.
  unfold set_workerCount, set_lastAccessTime; simpl.
  f_equal.
  - f_equal. rewrite wrap_wrap_add. f_equal. lia.
  - lia.
  - rewrite <- app_assoc. reflexivity.
Qed.

Lemma repeatM_generateWorker : forall n w,
  repeatM n generateWorker w = (tt, launched n w).
Proof.
  induction n as [| n IH]; intros w; [reflexivity |].
  change (repeatM (S n) generateWorker w)
    with (let (_, w') := generateWorker w in repeatM n generateWorker w').
  rewrite generateWorker_launched, IH, launched_S. reflexivity.
Qed.

Lemma PreAllocWorkerSize_launched : forall n w,
  PreAllocWorkerSize n w = (tt, launched (Z.to_nat (n - workerCount (self w))) w).
Proof.
  intros n w. unfold PreAllocWorkerSize, bind, getPool, for_range.
  apply repeatM_generateWorker.
Qed.

Lemma trySpawn_launched : forall w,
  trySpawn w =
  (tt, launched (Z.to_nat (expectedWorkerCount (q_Count (jobQueue (self w)))
                             (workerBatchSize (self w)) (workerSizeStandBy (self w))
                             (workerSizeMaximum (self w))
                           - workerCount (self w))) w).
Proof.
  intros w. unfold trySpawn, bind, getPool, for_range.
  destruct (workerCount (self w) <? _) eqn:E.
  - apply repeatM_generateWorker.
  - apply Z.ltb_ge in E.
    replace (Z.to_nat _) with O by lia. reflexivity.
Qed.

Lemma launched_workers : forall n w, workers (launched n w) = (n + workers w)%nat.
Proof. intros [| n] w; reflexivity. Qed.

Lemma launched_trace : forall n w, trace (launched n w) = trace w ++ repeat EvGo n.
Proof. intros [| n] w; simpl; [now rewrite app_nil_r | reflexivity]. Qed.

Lemma launched_workerCount : forall n w,
  workerCount (self (launched n w)) =
  match n with O => workerCount (self w) | S _ => wrap (workerCount (self w) + Z.of_nat n) end.
Proof. intros [| n] w; reflexivity. Qed.

Lemma launched_frame : forall n w,
  isClosed (self (launched n w)) = isClosed (self w)
  /\ jobQueue (self (launched n w)) = jobQueue (self w)
  /\ spawnWorkerCh (self (launched n w)) = spawnWorkerCh (self w)
  /\ controller (launched n w) = controller w
  /\ clock (launched n w) = clock w.
Proof. intros [| n] w; repeat split; reflexivity. Qed.

Lemma launched_count_ok : forall n w, count_ok w -> count_ok (launched n w).
Proof.
  intros n w H. unfold count_ok in *.
  rewrite launched_workers, launched_workerCount.
  destruct n as [| n]; [exact H |].
  rewrite H, wrap_wrap_add. f_equal. lia.
Qed.

Lemma notifyWorkers_notified : forall w, notifyWorkers w = (tt, notified w).
Proof.
  intros w. unfold notifyWorkers, notified, wants_workers, bind, getPool.
  destruct ((workerCount (self w) <? workerSizeStandBy (self w))
            || (q_Count (jobQueue (self w)) >? 0)); [| reflexivity].
  unfold spawnWorkerCh_Offer, bind, getPool.
  destruct (chan_Offer 1 (spawnWorkerCh (self w))); reflexivity.
Qed.

Lemma chan_Offer_ok : forall ch,
  mailbox_ok ch ->
  mailbox_ok (snd (chan_Offer 1 ch)) /\ chanBuf (snd (chan_Offer 1 ch)) = [1].
Proof.
  intros [buf cap] [Hcap Hbuf]; simpl in *; subst cap.
  unfold chan_Offer, mailbox_ok; simpl.
  destruct Hbuf as [-> | ->]; simpl; auto.
Qed.

Lemma chan_recv_ok : forall ch v ch',
  mailbox_ok ch -> chan_recv ch = Some (v, ch') ->
  mailbox_ok ch' /\ chanBuf ch' = [] /\ v = 1.
Proof.
  intros [buf cap] v ch' [Hcap Hbuf]; simpl in *; subst cap.
  unfold chan_recv; simpl.
  destruct Hbuf as [-> | ->]; simpl; [discriminate |].
  intros [= <- <-]. unfold mailbox_ok; simpl; auto.
Qed.

Lemma Schedule_scheduled : forall fn w,
  Schedule fn w =
  if isClosed (self w) then (Some ErrWorkerPoolIsClosed, w)
  else (fst (q_Offer fn (jobQueue (self w))), scheduled fn w).
Proof.
  intros fn w. cbv [Schedule scheduled bind IsClosed getPool ret].
  destruct (isClosed (self w)); [reflexivity |].
  cbv [jobQueue_Offer spawnWorkerCh_Offer bind getPool modifyPool emit ret].
  destruct (q_Offer fn (jobQueue (self w))) as [r q'].
  cbn. destruct (chan_Offer 1 (spawnWorkerCh (self w))) as [sg ch'].
  cbn. rewrite <- app_assoc. reflexivity.
Qed.

Lemma Close_shut : forall w,
  Close w = (tt, if isClosed (self w) then w else shut w).
Proof.
  intros w. cbv [Close shut bind IsClosed getPool ret].
  destruct (isClosed (self w)); [reflexivity |].
  cbn. destruct (isJobQueueClosedWhenClose (self w)); reflexivity.
Qed.

Lemma ScheduleWithTimeout_Schedule : forall fn timeout w,
  ScheduleWithTimeout fn timeout w = Schedule fn w.
Proof. reflexivity. Qed.

(** ** Invariants of the reachable worlds *)

Lemma Inv_new : forall now (q : Q), Inv (NewDefaultWorkerPool now q).
Proof.
  intros now q. split.
  - split; [reflexivity | now left].
  - reflexivity.
Qed.

Lemma Inv_scheduled : forall fn w, Inv w -> Inv (scheduled fn w).
Proof.
  intros fn w [Hm Hc]. split.
  - apply (chan_Offer_ok _ Hm).
  - exact Hc.
Qed.

Lemma Inv_shut : forall w, Inv w -> Inv (shut w).
Proof.
  intros w [Hm Hc]. unfold shut.
  destruct (isJobQueueClosedWhenClose (self w)); split; assumption.
Qed.

Lemma Inv_launched : forall n w, Inv w -> Inv (launched n w).
Proof.
  intros n w [Hm Hc]. split.
  - destruct (launched_frame n w) as (_ & _ & -> & _). exact Hm.
  - now apply launched_count_ok.
Qed.

Lemma Inv_notified : forall w, Inv w -> Inv (notified w).
Proof.
  intros w [Hm Hc]. unfold notified.
  destruct (wants_workers (self w)); split; try assumption.
  apply (chan_Offer_ok _ Hm).
Qed.

(** An assignment to a field other than the counter and the mailbox. *)
Lemma Inv_assign : forall (f : DefaultWorkerPool Q -> DefaultWorkerPool Q) w,
  (forall p, workerCount (f p) = workerCount p) ->
  (forall p, spawnWorkerCh (f p) = spawnWorkerCh p) ->
  Inv w -> Inv (snd (modifyPool f w)).
Proof.
  intros f w Hc Hm [Hm' Hc']. split.
  - cbn. now rewrite Hm.
  - unfold count_ok. cbn. now rewrite Hc.
Qed.

Lemma worker_iteration_frame : forall ev w,
  let r := worker_iteration ev w in
  workerCount (self (snd r)) = workerCount (self w)
  /\ workers (snd r) = workers w
  /\ spawnWorkerCh (self (snd r)) = spawnWorkerCh (self w)
  /\ isClosed (self (snd r)) = isClosed (self w)
  /\ panicHandler (self (snd r)) = panicHandler (self w).
Proof.
  intros [[[| v] |] |] w; cbv [worker_iteration bind time_Now modifyPool emit ret getPool];
    cbn; auto.
  destruct (_ || _); cbn; auto.
Qed.

Lemma worker_deferred_cases : forall e w,
  let r := worker_deferred e w in
  (fst r = Terminated
   /\ workerCount (self (snd r)) = wrap (workerCount (self w) - 1)
   /\ workers (snd r) = pred (workers w)
   /\ spawnWorkerCh (self (snd r)) = spawnWorkerCh (self w)
   /\ isClosed (self (snd r)) = isClosed (self w))
  \/ (exists v h v', e = Panicking v /\ panicHandler (self w) = Some h
        /\ h v = Panics v' /\ fst r = Aborted v'
        /\ workerCount (self (snd r)) = workerCount (self w)).
Proof.
  intros [| v] w; cbv [worker_deferred bind getPool ret modifyPool thread_exit emit].
  - left. cbn. auto.
  - destruct (panicHandler (self w)) as [h |] eqn:Hh.
    + destruct (h v) as [| v'] eqn:Hv.
      * left. cbn. auto.
      * right. exists v, h, v'. cbn. auto.
    + left. cbn. auto.
Qed.

Lemma worker_step_Inv : forall ev w st w',
  (0 < workers w)%nat -> Inv w ->
  worker_step ev w = (st, w') ->
  (forall v, st <> ProcessAborted v) ->
  Inv w'.
Proof.
  intros ev w st w' Hpos [Hm Hc] Hstep Hst.
  unfold worker_step, bind in Hstep.
  pose proof (worker_iteration_frame ev w) as Hit. cbv zeta in Hit.
  destruct (worker_iteration ev w) as [[e |] w1]; cbn [fst snd] in Hit.
  - pose proof (worker_deferred_cases e w1) as Hd. cbv zeta in Hd.
    destruct (worker_deferred e w1) as [fin w2]; cbn [fst snd] in Hd.
    destruct Hd as [(Hf & Hcnt & Hw & Hch & _) | (v & h & v' & _ & _ & _ & Hf & _)].
    + subst fin. injection Hstep as <- <-.
      destruct Hit as (Hc1 & Hw1 & Hch1 & _). split.
      * now rewrite Hch, Hch1.
      * unfold count_ok in *. rewrite Hcnt, Hw, Hc1, Hw1, Hc, wrap_wrap_sub.
        f_equal. lia.
    + subst fin. injection Hstep as <- <-. now elim (Hst v').
  - injection Hstep as <- <-.
    destruct Hit as (Hc1 & Hw1 & Hch1 & _). split.
    + now rewrite Hch1.
    + unfold count_ok. now rewrite Hc1, Hw1.
Qed.

Lemma after_worker_Next : forall (r : WorkerStatus * World Q) w',
  after_worker r = Next w' ->
  snd r = w' /\ forall v, fst r <> ProcessAborted v.
Proof.
  intros [st w1] w'. unfold after_worker; cbn [fst snd].
  destruct st; intros [= <-]; split; (reflexivity || discriminate).
Qed.

Ltac setter_with_notify :=
  cbv [SetWorkerBatchSize SetWorkerSizeStandBy SetWorkerSizeMaximum
       SetWorkerExpiryDuration bind getPool modifyPool];
  rewrite notifyWorkers_notified; cbn [snd];
  apply Inv_notified;
  lazymatch goal with
  | |- Inv (mkWorld (?f ?v (self ?w)) _ _ _ _) =>
      apply (Inv_assign (f v) w); [reflexivity | reflexivity | assumption]
  end.

Lemma Inv_step : forall a w w', Inv w -> step a w = Next w' -> Inv w'.
Proof.
  intros a w w' HI Hs.
  destruct a; cbn [step] in Hs.
  - injection Hs as <-. rewrite Schedule_scheduled.
    destruct (isClosed (self w)); [exact HI | now apply Inv_scheduled].
  - injection Hs as <-. rewrite ScheduleWithTimeout_Schedule, Schedule_scheduled.
    destruct (isClosed (self w)); [exact HI | now apply Inv_scheduled].
  - injection Hs as <-. rewrite Close_shut.
    destruct (isClosed (self w)); [exact HI | now apply Inv_shut].
  - injection Hs as <-. rewrite PreAllocWorkerSize_launched. now apply Inv_launched.
  - injection Hs as <-. now apply (Inv_assign (set_jobQueue q) w).
  - injection Hs as <-. now apply (Inv_assign (set_isJobQueueClosedWhenClose v) w).
  - injection Hs as <-. now apply (Inv_assign (set_panicHandler h) w).
  - injection Hs as <-. setter_with_notify.
  - injection Hs as <-. setter_with_notify.
  - injection Hs as <-. setter_with_notify.
  - injection Hs as <-. now apply (Inv_assign (set_spawnWorkerDuration v) w).
  - injection Hs as <-. setter_with_notify.
  - destruct (controller w); [| discriminate].
    cbv [spawnLoop_iteration bind getPool] in Hs.
    destruct (chan_recv (spawnWorkerCh (self w))) as [[v ch'] |] eqn:Hr; [| discriminate].
    destruct HI as [Hm Hc].
    destruct (chan_recv_ok _ _ _ Hm Hr) as (Hm' & _ & _).
    cbv [modifyPool IsClosed bind getPool ret] in Hs. cbn [self isClosed set_spawnWorkerCh] in Hs.
    destruct (isClosed (self w)).
    + cbn in Hs. injection Hs as <-. split; [exact Hm' | exact Hc].
    + rewrite trySpawn_launched in Hs. cbv [time_Sleep emit ret] in Hs.
      injection Hs as <-.
      match goal with
      | |- Inv (mkWorld (self (launched ?n ?w0)) _ _ _ _) =>
          assert (HI0 : Inv (launched n w0)) by (apply Inv_launched; split; assumption);
          destruct HI0 as [Hm0 Hc0]
      end.
      split; [exact Hm0 | exact Hc0].
  - destruct (workers w) as [| n] eqn:Hw; [discriminate |].
    destruct (q_Recv (jobQueue (self w))) as [[job q'] |]; [| discriminate].
    apply after_worker_Next in Hs. destruct Hs as [<- Hst].
    set (w1 := snd (modifyPool (set_jobQueue q') w)) in *.
    apply (worker_step_Inv (RecvJob job) w1 (fst (worker_step (RecvJob job) w1)));
      [| | apply surjective_pairing | exact Hst].
    + subst w1. cbn. lia.
    + now apply (Inv_assign (set_jobQueue q') w).
  - destruct (workers w) as [| n] eqn:Hw; [discriminate |].
    apply after_worker_Next in Hs. destruct Hs as [<- Hst].
    apply (worker_step_Inv TimerFired w (fst (worker_step TimerFired w)));
      [lia | exact HI | apply surjective_pairing | exact Hst].
  - destruct (dt <? 0); [discriminate |]. injection Hs as <-. exact HI.
Qed.

Lemma reachable_Inv : forall w, reachable w -> Inv w.
Proof.
  induction 1 as [now q | a w w' _ IH Hs].
  - apply Inv_new.
  - exact (Inv_step a w w' IH Hs).
Qed.

(** The closed flag is never reset. *)
Lemma notified_isClosed : forall w, isClosed (self (notified w)) = isClosed (self w).
Proof. intros w. unfold notified. destruct (wants_workers (self w)); reflexivity. Qed.

Lemma worker_step_isClosed : forall ev w,
  isClosed (self (snd (worker_step ev w))) = isClosed (self w).
Proof.
  intros ev w. unfold worker_step, bind.
  pose proof (worker_iteration_frame ev w) as Hit. cbv zeta in Hit.
  destruct (worker_iteration ev w) as [[e |] w1]; cbn [fst snd] in Hit;
    destruct Hit as (_ & _ & _ & Hcl & _); [| exact Hcl].
  unfold worker_deferred, bind.
  destruct e as [| v]; cbv [ret getPool].
  - exact Hcl.
  - destruct (panicHandler (self w1)) as [h |]; [| exact Hcl].
    cbv [emit]. destruct (h v); exact Hcl.
Qed.

Lemma step_keeps_closed : forall a w w',
  isClosed (self w) = true -> step a w = Next w' -> isClosed (self w') = true.
Proof.
  intros a w w' Hc Hs.
  destruct a; cbn [step] in Hs;
    try (injection Hs as <-;
         cbv [SetJobQueue SetIsJobQueueClosedWhenClose SetPanicHandler SetSpawnWorkerDuration
              SetWorkerBatchSize SetWorkerSizeStandBy SetWorkerSizeMaximum
              SetWorkerExpiryDuration bind getPool modifyPool];
         rewrite ?notifyWorkers_notified; cbn [snd];
         rewrite ?notified_isClosed; exact Hc).
  - injection Hs as <-. rewrite Schedule_scheduled, Hc. exact Hc.
  - injection Hs as <-. rewrite ScheduleWithTimeout_Schedule, Schedule_scheduled, Hc. exact Hc.
  - injection Hs as <-. rewrite Close_shut, Hc. exact Hc.
  - injection Hs as <-. rewrite PreAllocWorkerSize_launched. cbn [snd].
    destruct (launched_frame (Z.to_nat (n - workerCount (self w))) w) as (-> & _). exact Hc.
  - destruct (controller w); [| discriminate].
    cbv [spawnLoop_iteration bind getPool] in Hs.
    destruct (chan_recv (spawnWorkerCh (self w))) as [[v ch'] |]; [| discriminate].
    cbv [modifyPool IsClosed bind getPool ret] in Hs. cbn [self isClosed set_spawnWorkerCh] in Hs.
    rewrite Hc in Hs. cbn in Hs. injection Hs as <-. exact Hc.
  - destruct (workers w); [discriminate |].
    destruct (q_Recv (jobQueue (self w))) as [[job q'] |]; [| discriminate].
    apply after_worker_Next in Hs. destruct Hs as [<- _].
    rewrite worker_step_isClosed. exact Hc.
  - destruct (workers w); [discriminate |].
    apply after_worker_Next in Hs. destruct Hs as [<- _].
    rewrite worker_step_isClosed. exact Hc.
  - destruct (dt <? 0); [discriminate |]. injection Hs as <-. exact Hc.
Qed.

Lemma run_keeps_closed : forall acts w w',
  isClosed (self w) = true -> run acts w = Next w' -> isClosed (self w') = true.
Proof.
  induction acts as [| a acts IH]; intros w w' Hc Hr; cbn [run] in Hr.
  - injection Hr as <-. exact Hc.
  - destruct (step a w) as [w1 | |] eqn:Hs; try discriminate.
    exact (IH w1 w' (step_keeps_closed a w w1 Hc Hs) Hr).
Qed.

Lemma run_reachable : forall acts w w',
  reachable w -> run acts w = Next w' -> reachable w'.
Proof.
  induction acts as [| a acts IH]; intros w w' Hw Hr; cbn [run] in Hr.
  - injection Hr as <-. exact Hw.
  - destruct (step a w) as [w1 | |] eqn:Hs; try discriminate.
    exact (IH w1 w' (reachable_step a w w1 Hw Hs) Hr).
Qed.

(** ** Submission *)

(** C4. [Schedule] on a closed pool returns [ErrWorkerPoolIsClosed]
    and leaves the world, the queue included, as it was.  On an open
    pool it offers the task to the queue, returns the queue's own
    result (nil, [ErrQueueIsFull] or [ErrQueueIsClosed]), and offers
    one signal to the mailbox without blocking; the mailbox has
    capacity 1 and afterwards holds exactly one signal, whether or not
    one was pending. *)
Theorem C4_Schedule : forall (fn : func) w,
  reachable w ->
  (isClosed (self w) = true ->
     Schedule fn w = (Some ErrWorkerPoolIsClosed, w))
  /\ (isClosed (self w) = false ->
       Schedule fn w = (fst (q_Offer fn (jobQueue (self w))), scheduled fn w)
       /\ (fst (Schedule fn w) = None
           \/ fst (Schedule fn w) = Some ErrQueueIsFull
           \/ fst (Schedule fn w) = Some ErrQueueIsClosed)
       /\ jobQueue (self (snd (Schedule fn w))) = snd (q_Offer fn (jobQueue (self w)))
       /\ trace (snd (Schedule fn w)) =
            trace w ++ [EvQueueOffer fn (fst (Schedule fn w));
                        EvSignal (fst (chan_Offer 1 (spawnWorkerCh (self w))))]
       /\ chanCap (spawnWorkerCh (self (snd (Schedule fn w)))) = 1%nat
       /\ chanBuf (spawnWorkerCh (self (snd (Schedule fn w)))) = [1]).
Proof.
  intros fn w Hw. rewrite Schedule_scheduled.
  split; intros Hc; rewrite Hc; [reflexivity |].
  cbn [fst snd].
  destruct (reachable_Inv w Hw) as [Hm _].
  destruct (chan_Offer_ok _ Hm) as [[Hcap _] Hbuf].
  repeat split; try assumption; try reflexivity.
  destruct (fst (q_Offer fn (jobQueue (self w)))) as [e |] eqn:He; [| now left].
  right. destruct (q_Offer_errors fn _ e He) as [-> | ->]; [now left | now right].
Qed.

(** C3. [ScheduleWithTimeout] does what [Schedule] does, result and
    world alike, whatever the timeout: the timeout has no part in the
    closed check, in the signal or in the task.  Its result is nil,
    [ErrWorkerPoolIsClosed], [ErrQueueIsFull], [ErrQueueIsClosed] or
    [ErrWorkerPoolScheduleTimeout]. *)
Theorem C3_ScheduleWithTimeout : forall (fn : func) (timeout : Duration) w,
  ScheduleWithTimeout fn timeout w = Schedule fn w
  /\ (forall timeout' : Duration,
        ScheduleWithTimeout fn timeout' w = ScheduleWithTimeout fn timeout w)
  /\ (fst (ScheduleWithTimeout fn timeout w) = None
      \/ fst (ScheduleWithTimeout fn timeout w) = Some ErrWorkerPoolIsClosed
      \/ fst (ScheduleWithTimeout fn timeout w) = Some ErrQueueIsFull
      \/ fst (ScheduleWithTimeout fn timeout w) = Some ErrQueueIsClosed
      \/ fst (ScheduleWithTimeout fn timeout w) = Some ErrWorkerPoolScheduleTimeout).
Proof.
  intros fn timeout w. split; [reflexivity | split; [reflexivity |]].
  rewrite ScheduleWithTimeout_Schedule, Schedule_scheduled.
  destruct (isClosed (self w)); cbn [fst]; [now right; left |].
  destruct (fst (q_Offer fn (jobQueue (self w)))) as [e |] eqn:He; [| now left].
  destruct (q_Offer_errors fn _ e He) as [-> | ->]; auto.
Qed.

(** The code of [ScheduleWithTimeout] has no path to the timeout error. *)
Remark ScheduleWithTimeout_no_timeout_error : forall (fn : func) (timeout : Duration) w,
  fst (ScheduleWithTimeout fn timeout w) <> Some ErrWorkerPoolScheduleTimeout.
Proof.
  intros fn timeout w. rewrite ScheduleWithTimeout_Schedule, Schedule_scheduled.
  destruct (isClosed (self w)); cbn [fst]; [discriminate |].
  destruct (fst (q_Offer fn (jobQueue (self w)))) as [e |] eqn:He; [| discriminate].
  destruct (q_Offer_errors fn _ e He) as [-> | ->]; discriminate.
Qed.

(** ** Shutdown *)

(** C5. [Close] on a closed pool changes nothing.  On an open pool it
    sets the closed flag, and calls the queue's [Close] if and only if
    [isJobQueueClosedWhenClose] is true.  After [Close] the pool is
    closed, a second [Close] changes nothing, and whatever happens
    next, [Schedule] returns [ErrWorkerPoolIsClosed]. *)
Theorem C5_Close : forall w,
  (if isClosed (self w)
   then snd (Close w) = w
   else snd (Close w) = shut w
        /\ jobQueue (self (snd (Close w))) =
             (if isJobQueueClosedWhenClose (self w)
              then q_Close (jobQueue (self w)) else jobQueue (self w))
        /\ trace (snd (Close w)) =
             trace w ++ (if isJobQueueClosedWhenClose (self w) then [EvQueueClose] else []))
  /\ isClosed (self (snd (Close w))) = true
  /\ Close (snd (Close w)) = (tt, snd (Close w))
  /\ (forall acts w' (fn : func),
        run acts (snd (Close w)) = Next w' ->
        Schedule fn w' = (Some ErrWorkerPoolIsClosed, w')).
Proof.
  intros w.
  assert (Hcl : isClosed (self (snd (Close w))) = true).
  { rewrite Close_shut. cbn [snd]. destruct (isClosed (self w)) eqn:E; [exact E |].
    unfold shut. destruct (isJobQueueClosedWhenClose (self w)); reflexivity. }
  split; [| split; [exact Hcl | split]].
  - rewrite Close_shut. cbn [snd]. destruct (isClosed (self w)); [reflexivity |].
    unfold shut. destruct (isJobQueueClosedWhenClose (self w)); cbn;
      rewrite ?app_nil_r; auto.
  - rewrite (Close_shut (snd (Close w))), Hcl. reflexivity.
  - intros acts w' fn Hr.
    rewrite Schedule_scheduled, (run_keeps_closed acts _ w' Hcl Hr). reflexivity.
Qed.

(** ** The worker *)

Lemma worker_step_TimerFired : forall w,
  worker_step TimerFired w =
  if (workerCount (self w) >? workerSizeStandBy (self w))
     || (workerCount (self w) >? workerSizeMaximum (self w))
  then (Retired,
        mkWorld (set_workerCount (wrap (workerCount (self w) - 1))
                   (set_lastAccessTime (clock w) (self w)))
          (clock w) (pred (workers w)) (controller w) (trace w))
  else (Active,
        mkWorld (set_lastAccessTime (clock w) (self w))
          (clock w) (workers w) (controller w) (trace w)).
Proof.
  intros w.
  cbv [worker_step worker_iteration bind time_Now modifyPool getPool ret].
  cbn [self workerCount workerSizeStandBy workerSizeMaximum set_lastAccessTime].
  destruct ((workerCount (self w) >? workerSizeStandBy (self w))
            || (workerCount (self w) >? workerSizeMaximum (self w))); reflexivity.
Qed.

(** C7. When the idle timer of a worker fires, the worker retires if
    and only if the worker count exceeds the standby floor or exceeds
    the maximum; retiring, it decrements the count and its goroutine
    ends, calling nothing; otherwise it stays in its loop, nothing
    but its last-access time having changed, and the next iteration
    starts a new timer. *)
Theorem C7_idle_expiry : forall w,
  (fst (worker_step TimerFired w) = Retired <->
     workerCount (self w) > workerSizeStandBy (self w)
     \/ workerCount (self w) > workerSizeMaximum (self w))
  /\ (fst (worker_step TimerFired w) = Retired \/ fst (worker_step TimerFired w) = Active)
  /\ trace (snd (worker_step TimerFired w)) = trace w
  /\ (fst (worker_step TimerFired w) = Retired ->
        workerCount (self (snd (worker_step TimerFired w))) = wrap (workerCount (self w) - 1)
        /\ workers (snd (worker_step TimerFired w)) = pred (workers w))
  /\ (fst (worker_step TimerFired w) = Active ->
        snd (worker_step TimerFired w) =
          snd (modifyPool (set_lastAccessTime (clock w)) w)
        /\ forall evs, worker_thread (TimerFired :: evs) w =
                       worker_thread evs (snd (worker_step TimerFired w))).
Proof.
  intros w.
  assert (Hth : forall evs, fst (worker_step TimerFired w) = Active ->
            worker_thread (TimerFired :: evs) w =
            worker_thread evs (snd (worker_step TimerFired w))).
  { intros evs. cbn [worker_thread]. unfold bind at 1.
    destruct (worker_step TimerFired w) as [st w1]. cbn [fst snd]. now intros ->. }
  revert Hth. rewrite worker_step_TimerFired.
  destruct (workerCount (self w) >? workerSizeStandBy (self w)) eqn:E1;
    destruct (workerCount (self w) >? workerSizeMaximum (self w)) eqn:E2;
    cbn [orb fst snd]; intros Hth;
    (split; [split; intros H; first [discriminate | reflexivity | lia] |]);
    (split; [auto |]); (split; [reflexivity |]);
    (split; [intros; (discriminate || (split; reflexivity)) |]);
    intros H; try discriminate; split; [reflexivity | intros evs; now apply Hth].
Qed.

Lemma worker_step_panicking_job : forall (v : PanicValue) w,
  worker_step (RecvJob (Some (Panics v))) w =
  match panicHandler (self w) with
  | Some handler =>
      match handler v with
      | Returns =>
          (Retired,
           mkWorld (set_workerCount (wrap (workerCount (self w) - 1))
                      (set_lastAccessTime (clock w) (self w)))
             (clock w) (pred (workers w)) (controller w)
             (trace w ++ [EvRun (Panics v); EvHandler v]))
      | Panics v' =>
          (ProcessAborted v',
           mkWorld (set_lastAccessTime (clock w) (self w))
             (clock w) (workers w) (controller w)
             (trace w ++ [EvRun (Panics v); EvHandler v]))
      end
  | None =>
      (Retired,
       mkWorld (set_workerCount (wrap (workerCount (self w) - 1))
                  (set_lastAccessTime (clock w) (self w)))
         (clock w) (pred (workers w)) (controller w)
         (trace w ++ [EvRun (Panics v)]))
  end.
Proof.
  intros v w.
  cbv [worker_step worker_iteration worker_deferred bind time_Now modifyPool getPool
       emit ret thread_exit].
  cbn [self trace panicHandler set_lastAccessTime].
  destruct (panicHandler (self w)) as [h |]; [| reflexivity].
  destruct (h v); cbn; rewrite <- app_assoc; reflexivity.
Qed.

Lemma worker_step_returning_job : forall w,
  worker_step (RecvJob (Some Returns)) w =
  (Active, mkWorld (set_lastAccessTime (clock w) (self w))
             (clock w) (workers w) (controller w) (trace w ++ [EvRun Returns])).
Proof. reflexivity. Qed.

Lemma worker_step_nil_job : forall w,
  worker_step (RecvJob None) w =
  (Active, mkWorld (set_lastAccessTime (clock w) (self w))
             (clock w) (workers w) (controller w) (trace w)).
Proof. reflexivity. Qed.

Lemma count_events_app : forall f (t1 t2 : list Event),
  count_events f (t1 ++ t2) = (count_events f t1 + count_events f t2)%nat.
Proof. intros f t1 t2. unfold count_events. now rewrite filter_app, length_app. Qed.

(** C2, as the code has it. A panic of a task unwinds the worker's
    function to its deferred recover: the configured handler, when
    there is one, is called exactly once with the panic's value, and no
    further event of the worker's [select] is handled: the worker does
    not go on with its loop. When the handler returns, the worker
    retires, decrementing the worker count. *)
Theorem C2_task_panic_retires_worker :
  forall (v : PanicValue) (handler : Handler) (evs : list SelectEvent) w,
  panicHandler (self w) = Some handler ->
  trace (snd (worker_thread (RecvJob (Some (Panics v)) :: evs) w)) =
    trace w ++ [EvRun (Panics v); EvHandler v]
  /\ count_events is_handler_call
       (trace (snd (worker_thread (RecvJob (Some (Panics v)) :: evs) w))) =
     S (count_events is_handler_call (trace w))
  /\ fst (worker_thread (RecvJob (Some (Panics v)) :: evs) w) <> Active
  /\ (handler v = Returns ->
        fst (worker_thread (RecvJob (Some (Panics v)) :: evs) w) = Retired
        /\ workerCount (self (snd (worker_thread (RecvJob (Some (Panics v)) :: evs) w))) =
             wrap (workerCount (self w) - 1)
        /\ workers (snd (worker_thread (RecvJob (Some (Panics v)) :: evs) w)) =
             pred (workers w)).
Proof.
  intros v handler evs w Hh.
  cbn [worker_thread]. unfold bind.
  rewrite worker_step_panicking_job, Hh.
  destruct (handler v) as [| v'] eqn:Hv; cbv [ret]; cbn [fst snd trace self workers];
    (split; [reflexivity |]);
    (split; [rewrite count_events_app; cbn; lia |]);
    (split; [discriminate |]);
    intros H; try discriminate; repeat split.
Qed.

(** ** The worker count *)

Lemma worker_step_count : forall ev w,
  match fst (worker_step ev w) with
  | Active =>
      workerCount (self (snd (worker_step ev w))) = workerCount (self w)
      /\ workers (snd (worker_step ev w)) = workers w
  | Retired =>
      workerCount (self (snd (worker_step ev w))) = wrap (workerCount (self w) - 1)
      /\ workers (snd (worker_step ev w)) = pred (workers w)
  | ProcessAborted _ =>
      workerCount (self (snd (worker_step ev w))) = workerCount (self w)
  end.
Proof.
  intros ev w. unfold worker_step, bind.
  pose proof (worker_iteration_frame ev w) as Hit. cbv zeta in Hit.
  destruct (worker_iteration ev w) as [[e |] w1]; cbn [fst snd] in Hit;
    destruct Hit as (Hc1 & Hw1 & _).
  - pose proof (worker_deferred_cases e w1) as Hd. cbv zeta in Hd.
    destruct (worker_deferred e w1) as [fin w2]; cbn [fst snd] in Hd.
    destruct Hd as [(-> & Hc & Hw & _) | (v & h & v' & _ & _ & _ & -> & Hc)];
      cbv [ret]; cbn [fst snd].
    + now rewrite Hc, Hw, Hc1, Hw1.
    + now rewrite Hc, Hc1.
  - cbv [ret]; cbn [fst snd]. auto.
Qed.

(** Over its whole life a worker changes the counter only when its
    goroutine ends. *)
Lemma worker_thread_count : forall evs w,
  match fst (worker_thread evs w) with
  | Active =>
      workerCount (self (snd (worker_thread evs w))) = workerCount (self w)
      /\ workers (snd (worker_thread evs w)) = workers w
  | Retired =>
      workerCount (self (snd (worker_thread evs w))) = wrap (workerCount (self w) - 1)
      /\ workers (snd (worker_thread evs w)) = pred (workers w)
  | ProcessAborted _ =>
      workerCount (self (snd (worker_thread evs w))) = workerCount (self w)
  end.
Proof.
  induction evs as [| ev evs IH]; intros w; [cbn; auto |].
  cbn [worker_thread]. unfold bind.
  pose proof (worker_step_count ev w) as Hs.
  destruct (worker_step ev w) as [st w1]; cbn [fst snd] in Hs.
  destruct st; cbv [ret]; cbn [fst snd]; try exact Hs.
  destruct Hs as [Hc Hw]. specialize (IH w1).
  destruct (fst (worker_thread evs w1)); rewrite <- ?Hc, <- ?Hw; exact IH.
Qed.

(** C6. In every world the system can reach (with a number of workers
    that fits a Go int) the worker count is the number of workers in
    their loop, hence never negative.  [generateWorker] adds one to it
    and launches one worker; a worker leaves it alone while it loops;
    and when the worker's goroutine ends, whether by retiring or through
    a panic that the deferred function recovers, it has subtracted
    one.  The deferred function fails to end the goroutine only when
    the panic handler itself panics, which ends the process. *)
Theorem C6_worker_count : forall w,
  reachable w ->
  Z.of_nat (workers w) <= max_int ->
  0 <= workerCount (self w)
  /\ workerCount (self w) = Z.of_nat (workers w)
  /\ workers (snd (generateWorker w)) = S (workers w)
  /\ workerCount (self (snd (generateWorker w))) = wrap (workerCount (self w) + 1)
  /\ (Z.of_nat (workers w) < max_int ->
       workerCount (self (snd (generateWorker w))) = workerCount (self w) + 1)
  /\ (forall evs : list SelectEvent,
        match fst (worker_thread evs w) with
        | Active =>
            workerCount (self (snd (worker_thread evs w))) = workerCount (self w)
        | Retired =>
            workerCount (self (snd (worker_thread evs w))) = workerCount (self w) - 1
        | ProcessAborted _ => True
        end)
  /\ (forall exit : LoopExit,
        (fst (worker_deferred exit w) = Terminated
         /\ workerCount (self (snd (worker_deferred exit w))) = workerCount (self w) - 1
         /\ workers (snd (worker_deferred exit w)) = pred (workers w))
        \/ (exists v handler v',
              exit = Panicking v /\ panicHandler (self w) = Some handler
              /\ handler v = Panics v'
              /\ fst (worker_deferred exit w) = Aborted v')).
Proof.
  intros w Hr Hb.
  destruct (reachable_Inv w Hr) as [_ Hc]. unfold count_ok in Hc.
  assert (Hrange : int_range (Z.of_nat (workers w))).
  { unfold int_range, min_int, max_int in *. lia. }
  rewrite (wrap_small _ Hrange) in Hc.
  assert (Hdec : wrap (workerCount (self w) - 1) = workerCount (self w) - 1).
  { apply wrap_small. unfold int_range, min_int, max_int in *. lia. }
  split; [lia |]. split; [exact Hc |].
  split; [reflexivity |]. split; [reflexivity |].
  split; [| split].
  - intros Hlt. cbn. apply wrap_small. unfold int_range, min_int, max_int in *. lia.
  - intros evs. pose proof (worker_thread_count evs w) as Ht.
    destruct (fst (worker_thread evs w)); [apply Ht | | exact I].
    rewrite <- Hdec. apply Ht.
  - intros exit. pose proof (worker_deferred_cases exit w) as Hd. cbv zeta in Hd.
    destruct Hd as [(Hf & Hcnt & Hw & _) | (v & h & v' & He & Hh & Hv & Hf & _)].
    + left. rewrite <- Hdec. auto.
    + right. exists v, h, v'. auto.
Qed.

(** ** Warm start *)

(** C8. [PreAllocWorkerSize n] calls [generateWorker] once for every
    integer from the worker count up to [n]: afterwards the count is [n]
    (or what it was, when that was already [n] or more).  Neither the
    queue nor any parameter of the Scaling Policy has a part in it, and
    it leaves the queue and the mailbox alone.  On a new pool whose
    standby is set to 2, [PreAllocWorkerSize 10] leaves 10 workers,
    whatever the queue holds. *)
Theorem C8_PreAllocWorkerSize : forall (n : Z) w,
  int_range (workerCount (self w)) ->
  n <= max_int ->
  snd (PreAllocWorkerSize n w) = launched (Z.to_nat (n - workerCount (self w))) w
  /\ workerCount (self (snd (PreAllocWorkerSize n w))) = Z.max (workerCount (self w)) n
  /\ workers (snd (PreAllocWorkerSize n w)) =
       (Z.to_nat (n - workerCount (self w)) + workers w)%nat
  /\ trace (snd (PreAllocWorkerSize n w)) =
       trace w ++ repeat EvGo (Z.to_nat (n - workerCount (self w)))
  /\ jobQueue (self (snd (PreAllocWorkerSize n w))) = jobQueue (self w)
  /\ spawnWorkerCh (self (snd (PreAllocWorkerSize n w))) = spawnWorkerCh (self w)
  /\ (forall now (q : Q),
        match run [CallSetWorkerSizeStandBy 2; CallPreAllocWorkerSize 10]
                  (NewDefaultWorkerPool now q) with
        | Next w' => workers w' = 10%nat /\ workerCount (self w') = 10
        | _ => False
        end).
Proof.
  intros n w Hc Hn. rewrite PreAllocWorkerSize_launched. cbn [snd].
  set (k := Z.to_nat (n - workerCount (self w))).
  destruct (launched_frame k w) as (_ & Hq & Hch & _).
  split; [reflexivity |]. split; [| split; [apply launched_workers |
    split; [apply launched_trace | split; [exact Hq | split; [exact Hch |]]]]].
  - rewrite launched_workerCount. destruct k as [| k'] eqn:Hk.
    + subst k. lia.
    + rewrite <- Hk. subst k. rewrite Z2Nat.id by lia.
      replace (workerCount (self w) + (n - workerCount (self w))) with n by lia.
      rewrite wrap_small; [lia |]. unfold int_range, min_int, max_int in *. lia.
  - intros now q. vm_compute. split; reflexivity.
Qed.

(** ** Configuration *)

Lemma notified_trace : forall w,
  trace (notified w) =
  trace w ++ (if (workerCount (self w) <? workerSizeStandBy (self w))
                 || (q_Count (jobQueue (self w)) >? 0)
              then [EvSignal (fst (chan_Offer 1 (spawnWorkerCh (self w))))]
              else []).
Proof.
  intros w. unfold notified, wants_workers.
  destruct ((workerCount (self w) <? workerSizeStandBy (self w))
            || (q_Count (jobQueue (self w)) >? 0)); cbn; [reflexivity |].
  now rewrite app_nil_r.
Qed.

Lemma notified_mailbox : forall w,
  spawnWorkerCh (self (notified w)) =
  if (workerCount (self w) <? workerSizeStandBy (self w))
     || (q_Count (jobQueue (self w)) >? 0)
  then snd (chan_Offer 1 (spawnWorkerCh (self w)))
  else spawnWorkerCh (self w).
Proof.
  intros w. unfold notified, wants_workers.
  destruct ((workerCount (self w) <? workerSizeStandBy (self w))
            || (q_Count (jobQueue (self w)) >? 0)); reflexivity.
Qed.

Ltac sizing_setter :=
  intros;
  cbv [SetWorkerBatchSize SetWorkerSizeStandBy SetWorkerSizeMaximum
       SetWorkerExpiryDuration bind getPool modifyPool];
  rewrite notifyWorkers_notified; cbn [fst snd];
  rewrite notified_trace, notified_mailbox;
  unfold notified, wants_workers; cbn;
  destruct (_ || _); repeat split; reflexivity.

(** C9, as the code has it. Every setter returns the receiver, which
    then holds the new value.  The setters of the queue, of the
    closed-on-close flag, of the panic handler and of the spawn interval
    call nothing.  The setters of the batch size, standby floor,
    maximum and expiry duration call [notifyWorkers], which offers a
    signal to the mailbox if and only if, the new value in place, the
    worker count is below the standby floor or the queue is not
    empty. *)
Theorem C9_setters : forall w,
  (forall q : Q,
     fst (SetJobQueue q w) = self (snd (SetJobQueue q w))
     /\ jobQueue (fst (SetJobQueue q w)) = q
     /\ trace (snd (SetJobQueue q w)) = trace w)
  /\ (forall v : bool,
       fst (SetIsJobQueueClosedWhenClose v w) = self (snd (SetIsJobQueueClosedWhenClose v w))
       /\ isJobQueueClosedWhenClose (fst (SetIsJobQueueClosedWhenClose v w)) = v
       /\ trace (snd (SetIsJobQueueClosedWhenClose v w)) = trace w)
  /\ (forall h : option Handler,
       fst (SetPanicHandler h w) = self (snd (SetPanicHandler h w))
       /\ panicHandler (fst (SetPanicHandler h w)) = h
       /\ trace (snd (SetPanicHandler h w)) = trace w)
  /\ (forall v : Duration,
       fst (SetSpawnWorkerDuration v w) = self (snd (SetSpawnWorkerDuration v w))
       /\ spawnWorkerDuration (fst (SetSpawnWorkerDuration v w)) = v
       /\ trace (snd (SetSpawnWorkerDuration v w)) = trace w)
  /\ (forall v : Z,
       fst (SetWorkerBatchSize v w) = self (snd (SetWorkerBatchSize v w))
       /\ workerBatchSize (fst (SetWorkerBatchSize v w)) = v
       /\ trace (snd (SetWorkerBatchSize v w)) =
            trace w ++ (if (workerCount (self w) <? workerSizeStandBy (self w))
                           || (q_Count (jobQueue (self w)) >? 0)
                        then [EvSignal (fst (chan_Offer 1 (spawnWorkerCh (self w))))]
                        else [])
       /\ spawnWorkerCh (fst (SetWorkerBatchSize v w)) =
            (if (workerCount (self w) <? workerSizeStandBy (self w))
                || (q_Count (jobQueue (self w)) >? 0)
             then snd (chan_Offer 1 (spawnWorkerCh (self w)))
             else spawnWorkerCh (self w)))
  /\ (forall v : Z,
       fst (SetWorkerSizeStandBy v w) = self (snd (SetWorkerSizeStandBy v w))
       /\ workerSizeStandBy (fst (SetWorkerSizeStandBy v w)) = v
       /\ trace (snd (SetWorkerSizeStandBy v w)) =
            trace w ++ (if (workerCount (self w) <? v)
                           || (q_Count (jobQueue (self w)) >? 0)
                        then [EvSignal (fst (chan_Offer 1 (spawnWorkerCh (self w))))]
                        else [])
       /\ spawnWorkerCh (fst (SetWorkerSizeStandBy v w)) =
            (if (workerCount (self w) <? v)
                || (q_Count (jobQueue (self w)) >? 0)
             then snd (chan_Offer 1 (spawnWorkerCh (self w)))
             else spawnWorkerCh (self w)))
  /\ (forall v : Z,
       fst (SetWorkerSizeMaximum v w) = self (snd (SetWorkerSizeMaximum v w))
       /\ workerSizeMaximum (fst (SetWorkerSizeMaximum v w)) = v
       /\ trace (snd (SetWorkerSizeMaximum v w)) =
            trace w ++ (if (workerCount (self w) <? workerSizeStandBy (self w))
                           || (q_Count (jobQueue (self w)) >? 0)
                        then [EvSignal (fst (chan_Offer 1 (spawnWorkerCh (self w))))]
                        else [])
       /\ spawnWorkerCh (fst (SetWorkerSizeMaximum v w)) =
            (if (workerCount (self w) <? workerSizeStandBy (self w))
                || (q_Count (jobQueue (self w)) >? 0)
             then snd (chan_Offer 1 (spawnWorkerCh (self w)))
             else spawnWorkerCh (self w)))
  /\ (forall v : Duration,
       fst (SetWorkerExpiryDuration v w) = self (snd (SetWorkerExpiryDuration v w))
       /\ workerExpiryDuration (fst (SetWorkerExpiryDuration v w)) = v
       /\ trace (snd (SetWorkerExpiryDuration v w)) =
            trace w ++ (if (workerCount (self w) <? workerSizeStandBy (self w))
                           || (q_Count (jobQueue (self w)) >? 0)
                        then [EvSignal (fst (chan_Offer 1 (spawnWorkerCh (self w))))]
                        else [])
       /\ spawnWorkerCh (fst (SetWorkerExpiryDuration v w)) =
            (if (workerCount (self w) <? workerSizeStandBy (self w))
                || (q_Count (jobQueue (self w)) >? 0)
             then snd (chan_Offer 1 (spawnWorkerCh (self w)))
             else spawnWorkerCh (self w))).
Proof.
  intros w.
  split; [intros; repeat split; reflexivity |].
  split; [intros; repeat split; reflexivity |].
  split; [intros; repeat split; reflexivity |].
  split; [intros; repeat split; reflexivity |].
  split; [sizing_setter |].
  split; [sizing_setter |].
  split; [sizing_setter |].
  sizing_setter.
Qed.

(** ** Construction *)

Lemma notified_workers : forall w, workers (notified w) = workers w.
Proof. intros w. unfold notified. destruct (wants_workers (self w)); reflexivity. Qed.

Lemma worker_step_workers_le : forall ev w,
  (forall v, fst (worker_step ev w) <> ProcessAborted v) ->
  (workers (snd (worker_step ev w)) <= workers w)%nat.
Proof.
  intros ev w Hst. pose proof (worker_step_count ev w) as Hc.
  destruct (fst (worker_step ev w)) as [| | v].
  - destruct Hc as [_ ->]. lia.
  - destruct Hc as [_ ->]. lia.
  - now elim (Hst v).
Qed.

(** Only the spawn loop and [PreAllocWorkerSize] launch workers. *)
Lemma step_launches : forall a w w',
  step a w = Next w' -> (workers w < workers w')%nat ->
  a = SpawnLoopTurn \/ exists n, a = CallPreAllocWorkerSize n.
Proof.
  intros a w w' Hs Hlt.
  destruct a; cbn [step] in Hs;
    try (left; reflexivity); try (right; eexists; reflexivity); exfalso;
    try (injection Hs as <-;
         cbv [SetJobQueue SetIsJobQueueClosedWhenClose SetPanicHandler SetSpawnWorkerDuration
              SetWorkerBatchSize SetWorkerSizeStandBy SetWorkerSizeMaximum
              SetWorkerExpiryDuration bind getPool modifyPool] in Hlt;
         rewrite ?notifyWorkers_notified in Hlt; cbn [snd] in Hlt;
         rewrite ?notified_workers in Hlt; cbn [workers] in Hlt; lia).
  - injection Hs as <-. rewrite Schedule_scheduled in Hlt.
    destruct (isClosed (self w)); cbn in Hlt; lia.
  - injection Hs as <-. rewrite ScheduleWithTimeout_Schedule, Schedule_scheduled in Hlt.
    destruct (isClosed (self w)); cbn in Hlt; lia.
  - injection Hs as <-. rewrite Close_shut in Hlt. cbn [snd] in Hlt.
    unfold shut in Hlt.
    destruct (isClosed (self w)); [lia |].
    destruct (isJobQueueClosedWhenClose (self w)); cbn in Hlt; lia.
  - destruct (workers w) as [| k] eqn:Hw; [discriminate |].
    destruct (q_Recv (jobQueue (self w))) as [[job q'] |]; [| discriminate].
    apply after_worker_Next in Hs. destruct Hs as [<- Hst].
    apply worker_step_workers_le in Hst.
    change (workers (snd (modifyPool (set_jobQueue q') w))) with (workers w) in Hst. lia.
  - destruct (workers w) as [| k] eqn:Hw; [discriminate |].
    apply after_worker_Next in Hs. destruct Hs as [<- Hst].
    apply worker_step_workers_le in Hst. lia.
  - destruct (dt <? 0); [discriminate |]. injection Hs as <-. cbn in Hlt. lia.
Qed.

(** C10. A pool just built is open, with the defaults of the struct
    literal: the queue closed on close, batch size 5, standby floor 5,
    maximum 1000, spawn interval 100 ms, worker expiry 5000 ms, the
    default panic handler, an empty mailbox of capacity 1, and worker
    count 0 with no worker launched.  Its spawn loop waits and no
    worker can act; and in any world, only a turn of the spawn loop,
    which takes a signal, or [PreAllocWorkerSize] launches workers. *)
Theorem C10_new_pool_defaults : forall (now : Time) (q : Q),
  isClosed (self (NewDefaultWorkerPool now q)) = false
  /\ jobQueue (self (NewDefaultWorkerPool now q)) = q
  /\ isJobQueueClosedWhenClose (self (NewDefaultWorkerPool now q)) = true
  /\ workerBatchSize (self (NewDefaultWorkerPool now q)) = 5
  /\ workerSizeStandBy (self (NewDefaultWorkerPool now q)) = 5
  /\ workerSizeMaximum (self (NewDefaultWorkerPool now q)) = 1000
  /\ spawnWorkerDuration (self (NewDefaultWorkerPool now q)) = 100 * Millisecond
  /\ workerExpiryDuration (self (NewDefaultWorkerPool now q)) = 5000 * Millisecond
  /\ Millisecond = 1000000
  /\ panicHandler (self (NewDefaultWorkerPool now q)) = Some defaultPanicHandler
  /\ spawnWorkerCh (self (NewDefaultWorkerPool now q)) = {| chanBuf := []; chanCap := 1 |}
  /\ workerCount (self (NewDefaultWorkerPool now q)) = 0
  /\ workers (NewDefaultWorkerPool now q) = 0%nat
  /\ trace (NewDefaultWorkerPool now q) = []
  /\ controller (NewDefaultWorkerPool now q) = Running
  /\ step SpawnLoopTurn (NewDefaultWorkerPool now q) = NotEnabled
  /\ step WorkerReceives (NewDefaultWorkerPool now q) = NotEnabled
  /\ step WorkerTimerFires (NewDefaultWorkerPool now q) = NotEnabled
  /\ (forall a w w',
        step a w = Next w' -> (workers w < workers w')%nat ->
        (a = SpawnLoopTurn /\ chanBuf (spawnWorkerCh (self w)) <> [])
        \/ exists n, a = CallPreAllocWorkerSize n).
Proof.
  intros now q. repeat (split; [reflexivity |]).
  intros a w w' Hs Hlt.
  destruct (step_launches a w w' Hs Hlt) as [-> | H]; [left | now right].
  split; [reflexivity |].
  cbn [step] in Hs. destruct (controller w); [| discriminate].
  cbv [spawnLoop_iteration bind getPool chan_recv] in Hs.
  destruct (chanBuf (spawnWorkerCh (self w))); [discriminate | discriminate].
Qed.

End PoolFacts.

(* ================================================================= *)
(** * Part III: the theorems at concrete pools *)
(* ================================================================= *)

Lemma fresh_pool_reachable : reachable fresh_pool.
Proof. exact (reachable_new 0 (NewBoundedQueue 64)). Qed.

Lemma warm_pool_reachable : reachable warm_pool.
Proof.
  exact (reachable_step (CallPreAllocWorkerSize 5) fresh_pool warm_pool
           fresh_pool_reachable eq_refl).
Qed.

(** C2 as the spec words it fails. A worker of [warm_pool] receives a
    task that panics, with a second task behind it: the handler is
    called once, but the worker is retired, not in its loop; the worker
    count went from 5 to 4 and the second task was never run by it. *)
Lemma C2_counterexample :
  fst (worker_step (RecvJob (Some (Panics "boom"%string))) warm_pool) = Retired
  /\ fst (worker_step (RecvJob (Some (Panics "boom"%string))) warm_pool) <> Active
  /\ fst (worker_thread [RecvJob (Some (Panics "boom"%string)); RecvJob (Some Returns)] warm_pool)
     = Retired
  /\ trace (snd (worker_thread [RecvJob (Some (Panics "boom"%string)); RecvJob (Some Returns)]
                   warm_pool))
     = trace warm_pool ++ [EvRun (Panics "boom"%string); EvHandler "boom"%string]
  /\ workerCount (self warm_pool) = 5
  /\ workerCount (self (snd (worker_step (RecvJob (Some (Panics "boom"%string))) warm_pool))) = 4
  /\ workers (snd (worker_step (RecvJob (Some (Panics "boom"%string))) warm_pool)) = 4%nat.
Proof.
  vm_compute. repeat split; try reflexivity. discriminate.
Qed.

Lemma C2_task_panic_retires_worker_witness :
  panicHandler (self warm_pool) = Some defaultPanicHandler
  /\ fst (worker_thread [RecvJob (Some (Panics "boom"%string)); RecvJob (Some Returns)] warm_pool)
     = Retired
  /\ count_events is_handler_call
       (trace (snd (worker_thread [RecvJob (Some (Panics "boom"%string)); RecvJob (Some Returns)]
                      warm_pool)))
     = 1%nat.
Proof.
  destruct (C2_task_panic_retires_worker "boom"%string defaultPanicHandler
              [RecvJob (Some Returns)] warm_pool eq_refl) as (_ & Hn & _ & Hr).
  destruct (Hr eq_refl) as (Hst & _).
  split; [reflexivity | split; [exact Hst | exact Hn]].
Defined.

Lemma C4_Schedule_witness :
  reachable fresh_pool
  /\ Schedule (Some Returns) fresh_pool = (None, scheduled (Some Returns) fresh_pool)
  /\ items (jobQueue (self (snd (Schedule (Some Returns) fresh_pool)))) = [Some Returns]
  /\ chanBuf (spawnWorkerCh (self (snd (Schedule (Some Returns) fresh_pool)))) = [1].
Proof.
  destruct (C4_Schedule (Some Returns) fresh_pool fresh_pool_reachable) as [_ H].
  destruct (H eq_refl) as (H1 & _ & H3 & _ & _ & H6).
  split; [exact fresh_pool_reachable |].
  split; [exact H1 |].
  split; [exact (f_equal items H3) | exact H6].
Defined.

Lemma C6_worker_count_witness :
  reachable warm_pool
  /\ workers warm_pool = 5%nat
  /\ workerCount (self warm_pool) = 5
  /\ 0 <= workerCount (self warm_pool).
Proof.
  assert (Hb : Z.of_nat (workers warm_pool) <= max_int) by (vm_compute; discriminate).
  destruct (C6_worker_count warm_pool warm_pool_reachable Hb) as (H0 & H1 & _).
  split; [exact warm_pool_reachable |].
  split; [reflexivity |].
  split; [exact H1 | exact H0].
Defined.

Lemma C8_PreAllocWorkerSize_witness :
  int_range (workerCount (self fresh_pool))
  /\ workerCount (self (snd (PreAllocWorkerSize 10 fresh_pool))) = 10
  /\ workers (snd (PreAllocWorkerSize 10 fresh_pool)) = 10%nat.
Proof.
  assert (Hc : int_range (workerCount (self fresh_pool))).
  { unfold int_range, min_int, max_int. cbn. lia. }
  assert (Hn : 10 <= max_int) by (unfold max_int; lia).
  destruct (C8_PreAllocWorkerSize 10 fresh_pool Hc Hn) as (_ & H2 & H3 & _).
  split; [exact Hc |].
  split; [exact H2 | exact H3].
Defined.

(** C9 as the spec words it fails. In [warm_pool] the worker count (5)
    is not below the standby floor (5) and the queue is empty: none of
    the four sizing setters offers a signal, and the mailbox stays
    empty. *)
Lemma C9_counterexample :
  workerCount (self warm_pool) = 5
  /\ workerSizeStandBy (self warm_pool) = 5
  /\ q_Count (jobQueue (self warm_pool)) = 0
  /\ chanBuf (spawnWorkerCh (self warm_pool)) = []
  /\ trace (snd (SetWorkerBatchSize 3 warm_pool)) = trace warm_pool
  /\ chanBuf (spawnWorkerCh (self (snd (SetWorkerBatchSize 3 warm_pool)))) = []
  /\ trace (snd (SetWorkerSizeStandBy 4 warm_pool)) = trace warm_pool
  /\ chanBuf (spawnWorkerCh (self (snd (SetWorkerSizeStandBy 4 warm_pool)))) = []
  /\ trace (snd (SetWorkerSizeMaximum 10 warm_pool)) = trace warm_pool
  /\ chanBuf (spawnWorkerCh (self (snd (SetWorkerSizeMaximum 10 warm_pool)))) = []
  /\ trace (snd (SetWorkerExpiryDuration (1000 * Millisecond) warm_pool)) = trace warm_pool
  /\ chanBuf (spawnWorkerCh (self (snd (SetWorkerExpiryDuration (1000 * Millisecond)
                                          warm_pool)))) = []
  /\ count_events is_signal (trace (snd (SetWorkerBatchSize 3 warm_pool))) = 0%nat.
Proof.
  vm_compute. repeat split; reflexivity.
Qed.

(* ================================================================= *)
(** * Part IV: further properties of the code *)
(* ================================================================= *)

(** ** The target of [trySpawn] *)

Lemma expectedWorkerCount_closed_form : forall d b s m : Z,
  0 <= d <= max_int ->
  expectedWorkerCount d b s m =
  if 0 <? m then Z.min (Z.max (ceil_div d (Z.max b 1)) s) m
  else Z.max (ceil_div d (Z.max b 1)) s.
Proof.
  intros d b s m Hd. unfold expectedWorkerCount.
  replace (if b <? 1 then 1 else b) with (Z.max b 1)
    by (destruct (b <? 1) eqn:E; lia).
  set (b' := Z.max b 1). assert (Hb' : 1 <= b') by (subst b'; lia).
  rewrite (ceil_div_quot d b') by lia.
  destruct (Z.rem d b' >? 0) eqn:Er.
  - rewrite (wrap_small (Z.quot d b' + 1)) by (apply quot_succ_in_range; lia).
    destruct (s >? Z.quot d b' + 1) eqn:Es; destruct (0 <? m) eqn:Em;
      rewrite Z.gtb_ltb, Em; cbn [andb];
      try match goal with |- context [?x >? m] => destruct (x >? m) eqn:Ex end; lia.
  - destruct (s >? Z.quot d b') eqn:Es; destruct (0 <? m) eqn:Em;
      rewrite Z.gtb_ltb, Em; cbn [andb];
      try match goal with |- context [?x >? m] => destruct (x >? m) eqn:Ex end; lia.
Qed.

Lemma ceil_div_nonneg : forall d b, 0 <= d -> 0 < b -> 0 <= ceil_div d b.
Proof. intros d b Hd Hb. pose proof (ceil_div_spec d b Hb). nia. Qed.

Lemma ceil_div_mono : forall d1 d2 b, 0 < b -> d1 <= d2 -> ceil_div d1 b <= ceil_div d2 b.
Proof.
  intros d1 d2 b Hb Hd.
  pose proof (ceil_div_spec d1 b Hb). pose proof (ceil_div_spec d2 b Hb). nia.
Qed.

Lemma ceil_div_le_self : forall d b, 0 <= d -> 1 <= b -> ceil_div d b <= d.
Proof. intros d b Hd Hb. pose proof (ceil_div_spec d b ltac:(lia)). nia. Qed.

Lemma expectedWorkerCount_range : forall d b s m : Z,
  0 <= d <= max_int -> int_range s -> int_range (expectedWorkerCount d b s m).
Proof.
  intros d b s m Hd Hs. rewrite expectedWorkerCount_closed_form by exact Hd.
  pose proof (ceil_div_nonneg d (Z.max b 1) ltac:(lia) ltac:(lia)).
  pose proof (ceil_div_le_self d (Z.max b 1) ltac:(lia) ltac:(lia)).
  unfold int_range, min_int, max_int in *.
  destruct (0 <? m) eqn:Em; lia.
Qed.

(** X1. For a queue depth [d >= 0] the target of [trySpawn] is never
    negative; with a positive maximum it never exceeds the maximum,
    and is the maximum itself when the standby floor lies above it;
    it is at least the standby floor when the maximum is not positive
    or not below the floor; and unless the maximum caps it, the target
    times the batch size covers the whole backlog. *)
Theorem X1_target_bounds : forall d b s m : Z,
  0 <= d <= max_int ->
  0 <= expectedWorkerCount d b s m
  /\ (0 < m -> expectedWorkerCount d b s m <= m)
  /\ (0 < m -> m <= s -> expectedWorkerCount d b s m = m)
  /\ (m <= 0 \/ s <= m -> s <= expectedWorkerCount d b s m)
  /\ (m <= 0 \/ expectedWorkerCount d b s m < m ->
      d <= expectedWorkerCount d b s m * Z.max b 1).
Proof.
  intros d b s m Hd. rewrite expectedWorkerCount_closed_form by exact Hd.
  pose proof (ceil_div_nonneg d (Z.max b 1) ltac:(lia) ltac:(lia)) as H0.
  pose proof (ceil_div_spec d (Z.max b 1) ltac:(lia)) as Hc.
  destruct (0 <? m) eqn:Em; repeat split; intros; try lia; nia.
Qed.

(** §8's scenario of a standby and maximum of 3 with 50 queued tasks. *)
Lemma X1_target_bounds_witness :
  0 <= 50 <= max_int /\ expectedWorkerCount 50 5 3 3 = 3.
Proof.
  assert (Hd : 0 <= 50 <= max_int) by (unfold max_int; lia).
  destruct (X1_target_bounds 50 5 3 3 Hd) as (_ & _ & H & _).
  split; [exact Hd | apply H; lia].
Defined.

(** X2. The target of [trySpawn] does not decrease when the queue
    gets deeper or when the standby floor is raised, the other
    parameters staying as they are. *)
Theorem X2_target_monotone : forall d1 d2 b s1 s2 m : Z,
  0 <= d1 -> d1 <= d2 -> d2 <= max_int -> s1 <= s2 ->
  expectedWorkerCount d1 b s1 m <= expectedWorkerCount d2 b s2 m.
Proof.
  intros d1 d2 b s1 s2 m H0 Hd H2 Hs.
  rewrite !expectedWorkerCount_closed_form by lia.
  pose proof (ceil_div_mono d1 d2 (Z.max b 1) ltac:(lia) Hd).
  destruct (0 <? m); lia.
Qed.

Lemma X2_target_monotone_witness :
  expectedWorkerCount 3 5 2 10 <= expectedWorkerCount 23 5 4 10.
Proof.
  apply X2_target_monotone; unfold max_int; lia.
Defined.

Section MoreFacts.

Context {Q : Type} {TQ : TaskQueue Q}.

Implicit Types (w : World Q) (p : DefaultWorkerPool Q).

(** ** [trySpawn] and the spawn loop *)

Lemma launched_settings : forall n w,
  workerBatchSize (self (launched n w)) = workerBatchSize (self w)
  /\ workerSizeStandBy (self (launched n w)) = workerSizeStandBy (self w)
  /\ workerSizeMaximum (self (launched n w)) = workerSizeMaximum (self w)
  /\ spawnWorkerDuration (self (launched n w)) = spawnWorkerDuration (self w)
  /\ panicHandler (self (launched n w)) = panicHandler (self w).
Proof. intros [| n] w; repeat split; reflexivity. Qed.

Lemma launched_target : forall n w, target_of (self (launched n w)) = target_of (self w).
Proof. intros [| n] w; reflexivity. Qed.

Lemma trySpawn_target : forall w,
  trySpawn w = (tt, launched (Z.to_nat (target_of (self w) - workerCount (self w))) w).
Proof. intros w. apply trySpawn_launched. Qed.

Lemma launched_to_target : forall (t : Z) w,
  int_range t -> int_range (workerCount (self w)) ->
  workerCount (self (launched (Z.to_nat (t - workerCount (self w))) w)) =
  Z.max (workerCount (self w)) t.
Proof.
  intros t w Ht Hc. rewrite launched_workerCount.
  destruct (Z.to_nat (t - workerCount (self w))) as [| k] eqn:Hk; [lia |].
  rewrite <- Hk, Z2Nat.id by lia.
  replace (workerCount (self w) + (t - workerCount (self w))) with t by lia.
  rewrite wrap_small by exact Ht. lia.
Qed.

(** X3. [trySpawn] launches exactly the workers missing to its target
    and none when the count has reached it: afterwards the worker count
    is the larger of the old count and the target, so it never goes
    down, it does not pass a positive maximum it was within, and a
    second [trySpawn] right after changes nothing. *)
Theorem X3_trySpawn_reaches_target : forall w,
  0 <= q_Count (jobQueue (self w)) <= max_int ->
  int_range (workerSizeStandBy (self w)) ->
  int_range (workerCount (self w)) ->
  workerCount (self (snd (trySpawn w))) = Z.max (workerCount (self w)) (target_of (self w))
  /\ workers (snd (trySpawn w)) =
       (Z.to_nat (target_of (self w) - workerCount (self w)) + workers w)%nat
  /\ (0 < workerSizeMaximum (self w) ->
       workerCount (self w) <= workerSizeMaximum (self w) ->
       workerCount (self (snd (trySpawn w))) <= workerSizeMaximum (self w))
  /\ trySpawn (snd (trySpawn w)) = (tt, snd (trySpawn w)).
Proof.
  intros w Hd Hs Hc.
  assert (Ht : int_range (target_of (self w)))
    by (apply expectedWorkerCount_range; assumption).
  rewrite trySpawn_target. cbn [snd].
  set (k := Z.to_nat (target_of (self w) - workerCount (self w))).
  assert (Hcount : workerCount (self (launched k w)) =
                   Z.max (workerCount (self w)) (target_of (self w)))
    by (apply launched_to_target; assumption).
  split; [exact Hcount |]. split; [apply launched_workers |]. split.
  - intros Hm Hle. rewrite Hcount.
    assert (target_of (self w) <= workerSizeMaximum (self w)); [| lia].
    unfold target_of. rewrite expectedWorkerCount_closed_form by exact Hd.
    apply Z.ltb_lt in Hm. rewrite Hm. lia.
  - rewrite trySpawn_target, launched_target, Hcount.
    replace (Z.to_nat _) with O by lia. reflexivity.
Qed.

Lemma worker_step_frame : forall ev w,
  controller (snd (worker_step ev w)) = controller w
  /\ workerSizeStandBy (self (snd (worker_step ev w))) = workerSizeStandBy (self w)
  /\ workerSizeMaximum (self (snd (worker_step ev w))) = workerSizeMaximum (self w)
  /\ spawnWorkerCh (self (snd (worker_step ev w))) = spawnWorkerCh (self w)
  /\ jobQueue (self (snd (worker_step ev w))) = jobQueue (self w)
  /\ panicHandler (self (snd (worker_step ev w))) = panicHandler (self w).
Proof.
  intros [[[| v] |] |] w.
  - rewrite worker_step_returning_job. repeat split.
  - rewrite worker_step_panicking_job.
    destruct (panicHandler (self w)) as [h |] eqn:Hh; [destruct (h v) |];
      cbn; rewrite ?Hh; repeat split.
  - rewrite worker_step_nil_job. repeat split.
  - rewrite worker_step_TimerFired. destruct (_ || _); repeat split.
Qed.

(** The world after the spawn loop has slept. *)
Lemma spawnLoop_iteration_open : forall w v ch',
  chan_recv (spawnWorkerCh (self w)) = Some (v, ch') ->
  isClosed (self w) = false ->
  spawnLoop_iteration w =
  (Evaluated,
   snd (emit (EvSleep (spawnWorkerDuration (self w)))
          (launched (Z.to_nat (target_of (self w) - workerCount (self w)))
             (snd (modifyPool (set_spawnWorkerCh ch') w))))).
Proof.
  intros w v ch' Hr Hc.
  cbv [spawnLoop_iteration bind getPool]. rewrite Hr.
  cbv [modifyPool IsClosed bind getPool ret]. cbn [self isClosed set_spawnWorkerCh].
  rewrite Hc, trySpawn_target. cbv [time_Sleep emit ret].
  match goal with
  | |- context [launched ?k ?w0] =>
      destruct (launched_settings k w0) as (_ & _ & _ & Hd & _)
  end.
  rewrite Hd. reflexivity.
Qed.

Lemma spawnLoop_iteration_closed : forall w v ch',
  chan_recv (spawnWorkerCh (self w)) = Some (v, ch') ->
  isClosed (self w) = true ->
  spawnLoop_iteration w =
  (Left, mkWorld (set_spawnWorkerCh ch' (self w)) (clock w) (workers w) Stopped (trace w)).
Proof.
  intros w v ch' Hr Hc.
  cbv [spawnLoop_iteration bind getPool]. rewrite Hr.
  cbv [modifyPool IsClosed bind getPool ret]. cbn [self isClosed set_spawnWorkerCh].
  rewrite Hc. reflexivity.
Qed.

(** A step leaves the spawn loop as it is, or stops it on a closed pool. *)
Lemma step_controller : forall a w w',
  step a w = Next w' ->
  controller w' = controller w
  \/ (isClosed (self w) = true /\ controller w' = Stopped).
Proof.
  intros a w w' Hs.
  destruct a; cbn [step] in Hs;
    try (injection Hs as <-; left;
         cbv [SetJobQueue SetIsJobQueueClosedWhenClose SetPanicHandler SetSpawnWorkerDuration
              SetWorkerBatchSize SetWorkerSizeStandBy SetWorkerSizeMaximum
              SetWorkerExpiryDuration bind getPool modifyPool];
         rewrite ?notifyWorkers_notified; cbn [snd]; unfold notified;
         try destruct (wants_workers _); reflexivity).
  - injection Hs as <-. left. rewrite Schedule_scheduled.
    destruct (isClosed (self w)); reflexivity.
  - injection Hs as <-. left. rewrite ScheduleWithTimeout_Schedule, Schedule_scheduled.
    destruct (isClosed (self w)); reflexivity.
  - injection Hs as <-. left. rewrite Close_shut. cbn [snd]. unfold shut.
    destruct (isClosed (self w)); [reflexivity |].
    destruct (isJobQueueClosedWhenClose (self w)); reflexivity.
  - injection Hs as <-. left. rewrite PreAllocWorkerSize_launched. cbn [snd].
    apply launched_frame.
  - destruct (controller w) eqn:Hctl; [| discriminate].
    destruct (chan_recv (spawnWorkerCh (self w))) as [[v ch'] |] eqn:Hr.
    + destruct (isClosed (self w)) eqn:Hc.
      * rewrite (spawnLoop_iteration_closed w v ch' Hr Hc) in Hs.
        injection Hs as <-. right. split; reflexivity.
      * rewrite (spawnLoop_iteration_open w v ch' Hr Hc) in Hs.
        injection Hs as <-. left.
        match goal with
        | |- context [launched ?k ?w0] =>
            destruct (launched_frame k w0) as (_ & _ & _ & Hl & _)
        end.
        cbn [emit snd controller]. rewrite Hl. exact Hctl.
    + cbv [spawnLoop_iteration bind getPool] in Hs. rewrite Hr in Hs. discriminate.
  - destruct (workers w); [discriminate |].
    destruct (q_Recv (jobQueue (self w))) as [[job q'] |]; [| discriminate].
    apply after_worker_Next in Hs. destruct Hs as [<- _]. left.
    exact (proj1 (worker_step_frame (RecvJob job) (snd (modifyPool (set_jobQueue q') w)))).
  - destruct (workers w); [discriminate |].
    apply after_worker_Next in Hs. destruct Hs as [<- _]. left.
    exact (proj1 (worker_step_frame TimerFired w)).
  - destruct (dt <? 0); [discriminate |]. injection Hs as <-. left. reflexivity.
Qed.

Lemma reachable_stopped_closed : forall w,
  reachable w -> controller w = Stopped -> isClosed (self w) = true.
Proof.
  induction 1 as [now q | a w w' Hr IH Hs]; [discriminate |].
  intros Hst. destruct (step_controller a w w' Hs) as [Hc | [Hc _]].
  - rewrite Hc in Hst. exact (step_keeps_closed a w w' (IH Hst) Hs).
  - exact (step_keeps_closed a w w' Hc Hs).
Qed.

Lemma run_keeps_stopped : forall acts w w',
  controller w = Stopped -> run acts w = Next w' -> controller w' = Stopped.
Proof.
  induction acts as [| a acts IH]; intros w w' Hc Hr; cbn [run] in Hr.
  - injection Hr as <-. exact Hc.
  - destruct (step a w) as [w1 | |] eqn:Hs; try discriminate.
    apply (IH w1 w'); [| exact Hr].
    destruct (step_controller a w w1 Hs) as [-> | [_ ->]]; [exact Hc | reflexivity].
Qed.

Lemma target_positive : forall d b s m : Z,
  1 <= d <= max_int -> 1 <= expectedWorkerCount d b s m.
Proof.
  intros d b s m Hd. rewrite expectedWorkerCount_closed_form by lia.
  pose proof (ceil_div_spec d (Z.max b 1) ltac:(lia)) as Hc.
  assert (1 <= ceil_div d (Z.max b 1)) by nia.
  destruct (0 <? m) eqn:Em; lia.
Qed.

Lemma spawn_turn_waiting : forall w,
  chanBuf (spawnWorkerCh (self w)) = [] -> step SpawnLoopTurn w = NotEnabled.
Proof.
  intros w H. cbn [step]. destruct (controller w); [| reflexivity].
  cbv [spawnLoop_iteration bind getPool chan_recv]. rewrite H. reflexivity.
Qed.

Lemma spawn_turn_open : forall w,
  reachable w -> isClosed (self w) = false ->
  chanBuf (spawnWorkerCh (self w)) <> [] ->
  exists w',
    step SpawnLoopTurn w = Next w'
    /\ chanBuf (spawnWorkerCh (self w')) = []
    /\ controller w' = Running
    /\ workerCount (self w') =
         workerCount (self (launched (Z.to_nat (target_of (self w) - workerCount (self w))) w))
    /\ workers w' = (Z.to_nat (target_of (self w) - workerCount (self w)) + workers w)%nat
    /\ trace w' =
         trace w ++ repeat EvGo (Z.to_nat (target_of (self w) - workerCount (self w)))
                 ++ [EvSleep (spawnWorkerDuration (self w))].
Proof.
  intros w Hr Hc Hne.
  assert (Hctl : controller w = Running).
  { destruct (controller w) eqn:E; [reflexivity |].
    rewrite (reachable_stopped_closed w Hr E) in Hc. discriminate. }
  destruct (reachable_Inv w Hr) as [[Hcap Hbuf] _].
  destruct Hbuf as [Hbuf | Hbuf]; [contradiction |].
  assert (Hrecv : chan_recv (spawnWorkerCh (self w)) =
                  Some (1, {| chanBuf := []; chanCap := chanCap (spawnWorkerCh (self w)) |})).
  { unfold chan_recv. rewrite Hbuf. reflexivity. }
  eexists. split.
  { cbn [step]. rewrite Hctl, (spawnLoop_iteration_open w _ _ Hrecv Hc). reflexivity. }
  set (k := Z.to_nat (target_of (self w) - workerCount (self w))).
  set (w0 := snd (modifyPool (set_spawnWorkerCh _) w)).
  cbn [emit snd self controller workers trace].
  destruct (launched_frame k w0) as (_ & _ & Hch & Hct & _).
  split; [rewrite Hch; reflexivity |].
  split; [rewrite Hct; exact Hctl |].
  split; [rewrite !launched_workerCount; reflexivity |].
  split; [rewrite launched_workers; reflexivity |].
  rewrite launched_trace, <- app_assoc. reflexivity.
Qed.

(** X4. When the spawn loop takes a signal on an open pool, it brings
    the worker count up to the target (never down), so that a queue
    that is not empty has at least one worker afterwards; it sleeps
    [spawnWorkerDuration] once; and it then waits, the mailbox being
    empty, until a next signal. *)
Theorem X4_spawn_turn : forall w,
  reachable w ->
  isClosed (self w) = false ->
  chanBuf (spawnWorkerCh (self w)) <> [] ->
  0 <= q_Count (jobQueue (self w)) <= max_int ->
  int_range (workerSizeStandBy (self w)) ->
  Z.of_nat (workers w) <= max_int ->
  exists w',
    step SpawnLoopTurn w = Next w'
    /\ workerCount (self w') = Z.max (workerCount (self w)) (target_of (self w))
    /\ (1 <= q_Count (jobQueue (self w)) -> 1 <= workerCount (self w'))
    /\ chanBuf (spawnWorkerCh (self w')) = []
    /\ step SpawnLoopTurn w' = NotEnabled
    /\ trace w' =
         trace w ++ repeat EvGo (Z.to_nat (target_of (self w) - workerCount (self w)))
                 ++ [EvSleep (spawnWorkerDuration (self w))].
Proof.
  intros w Hr Hc Hne Hd Hs Hb.
  destruct (spawn_turn_open w Hr Hc Hne) as (w' & Hstep & Hbuf & _ & Hcnt & _ & Htr).
  exists w'. split; [exact Hstep |].
  assert (Hrange : int_range (workerCount (self w))).
  { destruct (reachable_Inv w Hr) as [_ Hco]. rewrite Hco. apply wrap_range. }
  assert (Ht : int_range (target_of (self w)))
    by (apply expectedWorkerCount_range; assumption).
  rewrite (launched_to_target _ w Ht Hrange) in Hcnt.
  split; [exact Hcnt |]. split.
  - intros Hq. rewrite Hcnt.
    assert (1 <= target_of (self w)) by (apply target_positive; lia). lia.
  - split; [exact Hbuf |]. split; [now apply spawn_turn_waiting | exact Htr].
Qed.

Lemma run_schedules : forall (fns : list func) w,
  Inv w -> isClosed (self w) = false ->
  exists w1,
    run (map CallSchedule fns) w = Next w1
    /\ isClosed (self w1) = false
    /\ count_events is_signal (trace w1) =
         (count_events is_signal (trace w) + length fns)%nat
    /\ (fns <> [] -> chanBuf (spawnWorkerCh (self w1)) = [1]).
Proof.
  induction fns as [| fn fns IH]; intros w HI Hc.
  - exists w. cbn. repeat split; [exact Hc | lia | congruence].
  - cbn [map run step]. rewrite Schedule_scheduled, Hc. cbn [snd].
    destruct (IH (scheduled fn w) (Inv_scheduled fn w HI) Hc)
      as (w1 & Hrun & Hc1 & Hn & Hbuf).
    exists w1. split; [exact Hrun |]. split; [exact Hc1 |]. split.
    + rewrite Hn. cbn [scheduled trace]. rewrite count_events_app. cbn. lia.
    + intros _. destruct fns as [| fn' fns'].
      * cbn in Hrun. injection Hrun as <-.
        destruct HI as [Hm _]. apply (chan_Offer_ok _ Hm).
      * apply Hbuf. discriminate.
Qed.

(** X5. Signals coalesce. However many tasks are submitted in a row
    to an open pool, each [Schedule] offers a signal but the mailbox
    holds exactly one afterwards; one turn of the spawn loop takes it,
    and the loop then waits again. *)
Theorem X5_signals_coalesce : forall (fns : list func) w,
  reachable w ->
  isClosed (self w) = false ->
  fns <> [] ->
  exists w1 w2,
    run (map CallSchedule fns) w = Next w1
    /\ count_events is_signal (trace w1) =
         (count_events is_signal (trace w) + length fns)%nat
    /\ chanBuf (spawnWorkerCh (self w1)) = [1]
    /\ step SpawnLoopTurn w1 = Next w2
    /\ chanBuf (spawnWorkerCh (self w2)) = []
    /\ step SpawnLoopTurn w2 = NotEnabled.
Proof.
  intros fns w Hr Hc Hne.
  destruct (run_schedules fns w (reachable_Inv w Hr) Hc) as (w1 & Hrun & Hc1 & Hn & Hbuf).
  specialize (Hbuf Hne).
  assert (Hr1 : reachable w1) by exact (run_reachable _ w w1 Hr Hrun).
  assert (Hne1 : chanBuf (spawnWorkerCh (self w1)) <> []) by (rewrite Hbuf; discriminate).
  destruct (spawn_turn_open w1 Hr1 Hc1 Hne1) as (w2 & Hstep & Hbuf2 & _).
  exists w1, w2. repeat split; try assumption.
  now apply spawn_turn_waiting.
Qed.

(** X6. The spawn loop stops only on a closed pool and then for good.
    Taking a signal on a closed pool, it leaves its loop without
    launching a worker or calling anything; in every reachable world
    a stopped spawn loop means a closed pool, and whatever happens
    afterwards the loop stays stopped and the pool closed. *)
Theorem X6_spawn_loop_stops_for_good : forall w,
  reachable w ->
  (isClosed (self w) = true -> controller w = Running ->
   chanBuf (spawnWorkerCh (self w)) <> [] ->
   exists w',
     step SpawnLoopTurn w = Next w'
     /\ controller w' = Stopped
     /\ workers w' = workers w
     /\ workerCount (self w') = workerCount (self w)
     /\ trace w' = trace w
     /\ chanBuf (spawnWorkerCh (self w')) = [])
  /\ (controller w = Stopped ->
      isClosed (self w) = true
      /\ forall acts w',
           run acts w = Next w' ->
           controller w' = Stopped
           /\ step SpawnLoopTurn w' = NotEnabled
           /\ isClosed (self w') = true).
Proof.
  intros w Hr. split.
  - intros Hc Hctl Hne.
    destruct (reachable_Inv w Hr) as [[Hcap Hbuf] _].
    destruct Hbuf as [Hbuf | Hbuf]; [contradiction |].
    assert (Hrecv : chan_recv (spawnWorkerCh (self w)) =
                    Some (1, {| chanBuf := []; chanCap := chanCap (spawnWorkerCh (self w)) |})).
    { unfold chan_recv. rewrite Hbuf. reflexivity. }
    eexists. split.
    { cbn [step]. rewrite Hctl, (spawnLoop_iteration_closed w _ _ Hrecv Hc). reflexivity. }
    repeat split.
  - intros Hst. pose proof (reachable_stopped_closed w Hr Hst) as Hc.
    split; [exact Hc |]. intros acts w' Hrun.
    pose proof (run_keeps_stopped acts w w' Hst Hrun) as Hst'.
    split; [exact Hst' |]. split.
    + cbn [step]. rewrite Hst'. reflexivity.
    + exact (run_keeps_closed acts w w' Hc Hrun).
Qed.

Lemma quiet_step : forall a w w',
  isClosed (self w) = true ->
  chanBuf (spawnWorkerCh (self w)) = [] ->
  is_sizing_setter a = false ->
  step a w = Next w' ->
  chanBuf (spawnWorkerCh (self w')) = [] /\ controller w' = controller w.
Proof.
  intros a w w' Hc Hbuf Hq Hs.
  destruct a; try discriminate Hq; cbn [step] in Hs;
    try (injection Hs as <-; split; [exact Hbuf | reflexivity]).
  - injection Hs as <-. rewrite Schedule_scheduled, Hc. split; [exact Hbuf | reflexivity].
  - injection Hs as <-. rewrite ScheduleWithTimeout_Schedule, Schedule_scheduled, Hc.
    split; [exact Hbuf | reflexivity].
  - injection Hs as <-. rewrite Close_shut, Hc. split; [exact Hbuf | reflexivity].
  - injection Hs as <-. rewrite PreAllocWorkerSize_launched. cbn [snd].
    destruct (launched_frame (Z.to_nat (n - workerCount (self w))) w)
      as (_ & _ & -> & -> & _).
    split; [exact Hbuf | reflexivity].
  - pose proof (spawn_turn_waiting w Hbuf) as Hn. cbn [step] in Hn.
    rewrite Hn in Hs. discriminate.
  - destruct (workers w); [discriminate |].
    destruct (q_Recv (jobQueue (self w))) as [[job q'] |]; [| discriminate].
    apply after_worker_Next in Hs. destruct Hs as [<- _].
    destruct (worker_step_frame (RecvJob job) (snd (modifyPool (set_jobQueue q') w)))
      as (-> & _ & _ & -> & _).
    split; [exact Hbuf | reflexivity].
  - destruct (workers w); [discriminate |].
    apply after_worker_Next in Hs. destruct Hs as [<- _].
    destruct (worker_step_frame TimerFired w) as (-> & _ & _ & -> & _).
    split; [exact Hbuf | reflexivity].
  - destruct (dt <? 0); [discriminate |]. injection Hs as <-.
    split; [exact Hbuf | reflexivity].
Qed.

Lemma quiet_run : forall acts w w',
  isClosed (self w) = true ->
  chanBuf (spawnWorkerCh (self w)) = [] ->
  forallb (fun a => negb (is_sizing_setter a)) acts = true ->
  run acts w = Next w' ->
  isClosed (self w') = true
  /\ chanBuf (spawnWorkerCh (self w')) = []
  /\ controller w' = controller w.
Proof.
  induction acts as [| a acts IH]; intros w w' Hc Hbuf Hq Hrun; cbn [run] in Hrun.
  - injection Hrun as <-. auto.
  - cbn [forallb] in Hq. apply andb_true_iff in Hq. destruct Hq as [Ha Hq].
    apply negb_true_iff in Ha.
    destruct (step a w) as [w1 | |] eqn:Hs; try discriminate.
    destruct (quiet_step a w w1 Hc Hbuf Ha Hs) as [Hbuf1 Hctl1].
    destruct (IH w1 w' (step_keeps_closed a w w1 Hc Hs) Hbuf1 Hq Hrun)
      as (Hc' & Hbuf' & Hctl').
    rewrite Hctl' , Hctl1. auto.
Qed.

(** X7. [Close] does not wake the spawn loop. When no signal is
    pending, [Close] followed by any schedule of submissions, further
    closes, pre-allocations, the other setters and worker activity
    leaves the mailbox empty: the spawn loop is still blocked on it, in
    the state it was in, and only a sizing setter can make it notice
    that the pool is closed. *)
Theorem X7_close_leaves_spawn_loop_waiting : forall acts w w',
  chanBuf (spawnWorkerCh (self w)) = [] ->
  forallb (fun a => negb (is_sizing_setter a)) acts = true ->
  run (CallClose :: acts) w = Next w' ->
  isClosed (self w') = true
  /\ chanBuf (spawnWorkerCh (self w')) = []
  /\ controller w' = controller w
  /\ step SpawnLoopTurn w' = NotEnabled.
Proof.
  intros acts w w' Hbuf Hq Hrun.
  cbn [run step] in Hrun.
  assert (Hc : isClosed (self (snd (Close w))) = true).
  { rewrite Close_shut. cbn [snd]. destruct (isClosed (self w)) eqn:E; [exact E |].
    unfold shut. destruct (isJobQueueClosedWhenClose (self w)); reflexivity. }
  assert (Hb : chanBuf (spawnWorkerCh (self (snd (Close w)))) = []).
  { rewrite Close_shut. cbn [snd]. destruct (isClosed (self w)); [exact Hbuf |].
    unfold shut. destruct (isJobQueueClosedWhenClose (self w)); exact Hbuf. }
  assert (Hk : controller (snd (Close w)) = controller w).
  { rewrite Close_shut. cbn [snd]. destruct (isClosed (self w)); [reflexivity |].
    unfold shut. destruct (isJobQueueClosedWhenClose (self w)); reflexivity. }
  destruct (quiet_run acts _ w' Hc Hb Hq Hrun) as (Hc' & Hb' & Hk').
  repeat split; try assumption.
  - now rewrite Hk', Hk.
  - now apply spawn_turn_waiting.
Qed.

(** ** Idle workers *)

Lemma reachable_count : forall w,
  reachable w -> Z.of_nat (workers w) <= max_int ->
  workerCount (self w) = Z.of_nat (workers w).
Proof.
  intros w Hr Hb. destruct (reachable_Inv w Hr) as [_ Hc]. rewrite Hc.
  apply wrap_small. unfold int_range, min_int, max_int in *. lia.
Qed.

Lemma timer_step : forall w,
  (1 <= workers w)%nat ->
  step WorkerTimerFires w = Next (snd (worker_step TimerFired w)).
Proof.
  intros w H. cbn [step]. destruct (workers w) eqn:Hw; [lia |].
  unfold after_worker. rewrite worker_step_TimerFired.
  destruct (_ || _); reflexivity.
Qed.


(** X9. The idle check does not read a maximum of 0 or less as "no
    maximum". With such a maximum every worker whose timer fires
    retires, even at or below the standby floor, although [trySpawn]
    with the same settings aims at no fewer workers than the floor. *)
Theorem X9_nonpositive_maximum_retires_idle : forall w,
  reachable w ->
  Z.of_nat (workers w) <= max_int ->
  (1 <= workers w)%nat ->
  workerSizeMaximum (self w) <= 0 ->
  exists w',
    step WorkerTimerFires w = Next w'
    /\ workers w' = pred (workers w)
    /\ workerCount (self w') = workerCount (self w) - 1
    /\ (0 <= q_Count (jobQueue (self w)) <= max_int ->
        workerSizeStandBy (self w) <= target_of (self w)).
Proof.
  intros w Hr Hb H1 Hm.
  pose proof (reachable_count w Hr Hb) as Hc.
  eexists. split; [now apply timer_step |].
  rewrite worker_step_TimerFired.
  assert (E : (workerCount (self w) >? workerSizeStandBy (self w))
              || (workerCount (self w) >? workerSizeMaximum (self w)) = true).
  { apply orb_true_iff. right. apply Z.gtb_lt. lia. }
  rewrite E. cbn [snd workers self workerCount set_workerCount].
  split; [reflexivity |]. split.
  - apply wrap_small. unfold int_range, min_int, max_int in *. lia.
  - intros Hd. unfold target_of. rewrite expectedWorkerCount_closed_form by exact Hd.
    destruct (0 <? workerSizeMaximum (self w)) eqn:Em; lia.
Qed.

(** ** Warm start, again *)

(** X10. Pre-allocations compose to the largest request: after
    [PreAllocWorkerSize a] and then [PreAllocWorkerSize b] the worker
    count is the largest of the old count, [a] and [b], and the second
    call does nothing at all when [b] is not above what the first
    left. *)
Theorem X10_PreAllocWorkerSize_twice : forall (a b : Z) w,
  int_range (workerCount (self w)) ->
  a <= max_int -> b <= max_int ->
  workerCount (self (snd (PreAllocWorkerSize b (snd (PreAllocWorkerSize a w))))) =
    Z.max (Z.max (workerCount (self w)) a) b
  /\ (b <= Z.max (workerCount (self w)) a ->
      PreAllocWorkerSize b (snd (PreAllocWorkerSize a w)) =
        (tt, snd (PreAllocWorkerSize a w))).
Proof.
  intros a b w Hc Ha Hb.
  assert (Hra : int_range (Z.max (workerCount (self w)) a))
    by (unfold int_range, min_int, max_int in *; lia).
  assert (H1 : workerCount (self (snd (PreAllocWorkerSize a w))) =
               Z.max (workerCount (self w)) a).
  { rewrite PreAllocWorkerSize_launched. cbn [snd].
    destruct (Z_le_gt_dec a (workerCount (self w))) as [Hle | Hgt].
    - replace (Z.to_nat _) with O by lia. cbn. lia.
    - rewrite launched_to_target; [lia | | exact Hc].
      unfold int_range, min_int, max_int in *. lia. }
  split.
  - rewrite (PreAllocWorkerSize_launched b). cbn [snd]. rewrite H1.
    destruct (Z_le_gt_dec b (Z.max (workerCount (self w)) a)) as [Hle | Hgt].
    + replace (Z.to_nat _) with O by lia. cbn [launched]. rewrite H1. lia.
    + rewrite <- H1 at 1. rewrite launched_to_target; [rewrite H1; lia | | rewrite H1; exact Hra].
      unfold int_range, min_int, max_int in *. lia.
  - intros Hle. rewrite (PreAllocWorkerSize_launched b), H1.
    replace (Z.to_nat _) with O by lia. reflexivity.
Qed.

(** ** What a worker runs *)

Lemma worker_thread_cons : forall ev evs w,
  worker_thread (ev :: evs) w =
  match fst (worker_step ev w) with
  | Active => worker_thread evs (snd (worker_step ev w))
  | st => (st, snd (worker_step ev w))
  end.
Proof.
  intros ev evs w. cbn [worker_thread]. unfold bind.
  destruct (worker_step ev w) as [[| | v] w1]; reflexivity.
Qed.

(** X11. A worker runs what it receives in the order it receives it.
    Fed functions that return, nil ones among them, it calls each
    function that is not nil once, in order, skips the nil ones, never
    calls the panic handler, leaves the worker count alone and is
    still in its loop, ready for whatever comes next. *)
Theorem X11_worker_runs_in_order : forall (jobs : list func) (evs : list SelectEvent) w,
  forallb never_panics jobs = true ->
  fst (worker_thread (map RecvJob jobs) w) = Active
  /\ trace (snd (worker_thread (map RecvJob jobs) w)) = trace w ++ ran jobs
  /\ workerCount (self (snd (worker_thread (map RecvJob jobs) w))) = workerCount (self w)
  /\ workers (snd (worker_thread (map RecvJob jobs) w)) = workers w
  /\ worker_thread (map RecvJob jobs ++ evs) w =
       worker_thread evs (snd (worker_thread (map RecvJob jobs) w)).
Proof.
  induction jobs as [| job jobs IH]; intros evs w Hj.
  - cbn. rewrite app_nil_r. repeat split.
  - cbn [forallb] in Hj. apply andb_true_iff in Hj. destruct Hj as [Hjob Hj].
    cbn [map app]. rewrite !worker_thread_cons.
    destruct job as [[| v] |]; try discriminate Hjob.
    + rewrite worker_step_returning_job. cbn [fst snd].
      match goal with
      | |- context [worker_thread (map RecvJob jobs) ?w1] =>
          destruct (IH evs w1 Hj) as (H1 & H2 & H3 & H4 & H5)
      end.
      rewrite H1, H2, H3, H4, H5. cbn [trace self workers workerCount set_lastAccessTime ran flat_map].
      rewrite <- app_assoc. repeat split.
    + rewrite worker_step_nil_job. cbn [fst snd].
      match goal with
      | |- context [worker_thread (map RecvJob jobs) ?w1] =>
          destruct (IH evs w1 Hj) as (H1 & H2 & H3 & H4 & H5)
      end.
      rewrite H1, H2, H3, H4, H5. cbn [trace self workers workerCount set_lastAccessTime ran flat_map].
      repeat split.
Qed.

(** X12. The two edges of the deferred recover. With the panic handler
    set to nil, a task's panic is swallowed: nothing is called, and the
    worker retires, decrementing the count.  With a handler that
    panics itself, the handler is called once and the count is not
    decremented: the panic leaves the deferred function and ends the
    process. *)
Theorem X12_handler_edges : forall (v : PanicValue) (evs : list SelectEvent) w,
  (panicHandler (self w) = None ->
     fst (worker_thread (RecvJob (Some (Panics v)) :: evs) w) = Retired
     /\ trace (snd (worker_thread (RecvJob (Some (Panics v)) :: evs) w)) =
          trace w ++ [EvRun (Panics v)]
     /\ workerCount (self (snd (worker_thread (RecvJob (Some (Panics v)) :: evs) w))) =
          wrap (workerCount (self w) - 1)
     /\ workers (snd (worker_thread (RecvJob (Some (Panics v)) :: evs) w)) =
          pred (workers w))
  /\ (forall (handler : Handler) (v' : PanicValue),
        panicHandler (self w) = Some handler -> handler v = Panics v' ->
        fst (worker_thread (RecvJob (Some (Panics v)) :: evs) w) = ProcessAborted v'
        /\ trace (snd (worker_thread (RecvJob (Some (Panics v)) :: evs) w)) =
             trace w ++ [EvRun (Panics v); EvHandler v]
        /\ workerCount (self (snd (worker_thread (RecvJob (Some (Panics v)) :: evs) w))) =
             workerCount (self w)
        /\ (forall q' : Q,
              (1 <= workers w)%nat ->
              q_Recv (jobQueue (self w)) = Some (Some (Panics v), q') ->
              step WorkerReceives w = ProcessEnds v')).
Proof.
  intros v evs w. split.
  - intros Hh. rewrite worker_thread_cons, worker_step_panicking_job, Hh.
    cbn. repeat split.
  - intros h v' Hh Hv. rewrite worker_thread_cons, worker_step_panicking_job, Hh, Hv.
    cbn [fst snd trace self workerCount set_lastAccessTime].
    repeat split.
    intros q' H1 Hq. cbn [step].
    destruct (workers w) eqn:Hw; [lia |].
    rewrite Hq. unfold after_worker. rewrite worker_step_panicking_job.
    cbn [modifyPool snd self panicHandler set_jobQueue]. rewrite Hh, Hv. reflexivity.
Qed.

(** ** Setters and the spawn loop together *)

Lemma target_at_least_standby : forall d b s m : Z,
  0 <= d <= max_int -> m <= 0 \/ s <= m -> s <= expectedWorkerCount d b s m.
Proof.
  intros d b s m Hd Hm. rewrite expectedWorkerCount_closed_form by exact Hd.
  destruct (0 <? m) eqn:Em; lia.
Qed.

(** X13. Raising the standby floor makes the pool grow without a new
    submission. On an open pool with fewer workers than the new floor
    [v], and [v] within the maximum, [SetWorkerSizeStandBy v] leaves a
    signal in the mailbox, and the turn of the spawn loop that takes it
    leaves at least [v] workers. *)
Theorem X13_raising_standby_spawns : forall (v : Z) w,
  reachable w ->
  isClosed (self w) = false ->
  workerCount (self w) < v ->
  int_range v ->
  workerSizeMaximum (self w) <= 0 \/ v <= workerSizeMaximum (self w) ->
  0 <= q_Count (jobQueue (self w)) <= max_int ->
  exists w1 w2,
    step (CallSetWorkerSizeStandBy v) w = Next w1
    /\ chanBuf (spawnWorkerCh (self w1)) = [1]
    /\ step SpawnLoopTurn w1 = Next w2
    /\ v <= workerCount (self w2)
    /\ (workers w <= workers w2)%nat
    /\ step SpawnLoopTurn w2 = NotEnabled.
Proof.
  intros v w Hr Hc Hlt Hv Hm Hd.
  destruct (reachable_Inv w Hr) as [Hmail Hcount].
  set (w1 := snd (SetWorkerSizeStandBy v w)).
  assert (Hs1 : step (CallSetWorkerSizeStandBy v) w = Next w1) by reflexivity.
  assert (Hr1 : reachable w1) by exact (reachable_step _ w w1 Hr Hs1).
  assert (Hw1 : w1 =
    mkWorld (set_spawnWorkerCh (snd (chan_Offer 1 (spawnWorkerCh (self w))))
               (set_workerSizeStandBy v (self w)))
      (clock w) (workers w) (controller w)
      (trace w ++ [EvSignal (fst (chan_Offer 1 (spawnWorkerCh (self w))))])).
  { subst w1. cbv [SetWorkerSizeStandBy bind getPool modifyPool].
    rewrite notifyWorkers_notified. cbn [snd]. unfold notified, wants_workers.
    cbn [self workerCount workerSizeStandBy set_workerSizeStandBy].
    rewrite (proj2 (Z.ltb_lt _ _) Hlt). reflexivity. }
  assert (Hbuf1 : chanBuf (spawnWorkerCh (self w1)) = [1]).
  { rewrite Hw1. cbn. apply (chan_Offer_ok _ Hmail). }
  assert (Hc1 : isClosed (self w1) = false) by (rewrite Hw1; exact Hc).
  assert (Hne1 : chanBuf (spawnWorkerCh (self w1)) <> []) by (rewrite Hbuf1; discriminate).
  destruct (spawn_turn_open w1 Hr1 Hc1 Hne1) as (w2 & Hs2 & Hbuf2 & _ & Hcnt & Hwk & _).
  exists w1, w2.
  assert (Ht1 : target_of (self w1) =
                expectedWorkerCount (q_Count (jobQueue (self w))) (workerBatchSize (self w))
                  v (workerSizeMaximum (self w))) by (rewrite Hw1; reflexivity).
  assert (Hcw1 : workerCount (self w1) = workerCount (self w)) by (rewrite Hw1; reflexivity).
  assert (Hrt : int_range (target_of (self w1)))
    by (rewrite Ht1; apply expectedWorkerCount_range; assumption).
  assert (Hrc : int_range (workerCount (self w1)))
    by (rewrite Hcw1, Hcount; apply wrap_range).
  rewrite (launched_to_target _ w1 Hrt Hrc) in Hcnt.
  pose proof (target_at_least_standby (q_Count (jobQueue (self w)))
                (workerBatchSize (self w)) v (workerSizeMaximum (self w)) Hd Hm) as Hge.
  rewrite <- Ht1 in Hge.
  repeat split; try assumption.
  - lia.
  - rewrite Hwk, Hw1. cbn [workers]. lia.
  - now apply spawn_turn_waiting.
Qed.

(** ** The invocation adapter *)

Lemma nth_error_set_nth_same : forall (A : Type) (l : list A) (a : nat) (x y : A),
  nth_error l a = Some y -> nth_error (set_nth a x l) a = Some x.
Proof.
  induction l as [| z l IH]; intros [| a] x y H; cbn in *; try discriminate.
  - reflexivity.
  - exact (IH a x y H).
Qed.

Lemma nth_error_set_nth_other : forall (A : Type) (l : list A) (a b : nat) (x : A),
  a <> b -> nth_error (set_nth a x l) b = nth_error l b.
Proof.
  induction l as [| z l IH]; intros [| a] [| b] x H; cbn; try reflexivity.
  - congruence.
  - apply IH. congruence.
Qed.

Lemma set_nth_unchanged : forall (A : Type) (l : list A) (a : nat) (x : A),
  nth_error l a = Some x -> set_nth a x l = l.
Proof.
  induction l as [| z l IH]; intros [| a] x H; cbn in *; try discriminate.
  - now injection H as ->.
  - now rewrite (IH a x H).
Qed.

(** X14. [Invoke] is [InvokeWithTimeout] with the error dropped: both
    schedule the same closure on the pool the invokable is bound to
    and leave the same pools behind, whatever the timeout.  On a closed
    pool [InvokeWithTimeout] reports [ErrWorkerPoolIsClosed] while
    [Invoke] reports nothing, and neither changes anything; on an open
    pool the closure has been offered to that pool's queue; and no
    other pool is touched. *)
Theorem X14_Invoke_drops_the_error :
  forall (T : Type) (inv : DefaultInvokable T) (val : T) (timeout : Duration)
         (a : nat) (pools : list (World Q)) w,
  workerPool inv = Some a ->
  nth_error pools a = Some w ->
  Invoke inv val pools = option_map snd (InvokeWithTimeout inv val timeout pools)
  /\ (isClosed (self w) = true ->
      Invoke inv val pools = Some pools
      /\ InvokeWithTimeout inv val timeout pools = Some (Some ErrWorkerPoolIsClosed, pools))
  /\ (isClosed (self w) = false ->
      InvokeWithTimeout inv val timeout pools =
        Some (fst (q_Offer (closure (callee inv) val) (jobQueue (self w))),
              set_nth a (scheduled (closure (callee inv) val) w) pools)
      /\ nth_error (set_nth a (scheduled (closure (callee inv) val) w) pools) a =
           Some (scheduled (closure (callee inv) val) w))
  /\ (forall (b : nat) pools',
        b <> a -> Invoke inv val pools = Some pools' ->
        nth_error pools' b = nth_error pools b).
Proof.
  intros T inv val timeout a pools w Ha Hw.
  unfold Invoke, InvokeWithTimeout. rewrite Ha, Hw.
  cbn [wp_Schedule wp_ScheduleWithTimeout DefaultWorkerPool_WorkerPool option_map fst snd].
  rewrite ScheduleWithTimeout_Schedule, Schedule_scheduled.
  split; [reflexivity |]. split; [| split].
  - intros Hc. rewrite Hc. cbn [fst snd]. rewrite (set_nth_unchanged _ pools a w Hw).
    split; reflexivity.
  - intros Hc. rewrite Hc. cbn [fst snd]. split; [reflexivity |].
    exact (nth_error_set_nth_same _ pools a _ w Hw).
  - intros b pools' Hb [= <-]. apply nth_error_set_nth_other. congruence.
Qed.

(** ** Accounting for the panic handler *)

Lemma count_repeat_EvGo : forall f k,
  f EvGo = false -> count_events f (repeat EvGo k) = 0%nat.
Proof.
  intros f k Hf. unfold count_events. induction k as [| k IH]; cbn; [reflexivity |].
  now rewrite Hf.
Qed.

(** A step appends a piece of trace in which every handler call is
    paid for by a task's panic. *)
Lemma step_trace_accounting : forall a w w',
  step a w = Next w' ->
  exists suffix,
    trace w' = trace w ++ suffix
    /\ (count_events is_handler_call suffix <= count_events is_task_panic suffix)%nat.
Proof.
  intros a w w' Hs.
  destruct a; cbn [step] in Hs;
    try (injection Hs as <-; exists []; split; [cbn; now rewrite app_nil_r | cbn; lia]);
    try (injection Hs as <-;
         cbv [SetWorkerBatchSize SetWorkerSizeStandBy SetWorkerSizeMaximum
              SetWorkerExpiryDuration bind getPool modifyPool];
         rewrite notifyWorkers_notified; cbn [snd]; rewrite notified_trace;
         eexists; split; [reflexivity | destruct (_ || _); cbn; lia]).
  - injection Hs as <-. rewrite Schedule_scheduled.
    destruct (isClosed (self w)); cbn [snd scheduled trace].
    + exists []. split; [now rewrite app_nil_r | cbn; lia].
    + eexists. split; [reflexivity | cbn; lia].
  - injection Hs as <-. rewrite ScheduleWithTimeout_Schedule, Schedule_scheduled.
    destruct (isClosed (self w)); cbn [snd scheduled trace].
    + exists []. split; [now rewrite app_nil_r | cbn; lia].
    + eexists. split; [reflexivity | cbn; lia].
  - injection Hs as <-. rewrite Close_shut. cbn [snd]. unfold shut.
    destruct (isClosed (self w)); [exists []; split; [now rewrite app_nil_r | cbn; lia] |].
    destruct (isJobQueueClosedWhenClose (self w)); cbn [trace].
    + eexists. split; [reflexivity | cbn; lia].
    + exists []. split; [now rewrite app_nil_r | cbn; lia].
  - injection Hs as <-. rewrite PreAllocWorkerSize_launched. cbn [snd].
    rewrite launched_trace. eexists. split; [reflexivity |].
    rewrite !count_repeat_EvGo by reflexivity. lia.
  - destruct (controller w) eqn:Hctl; [| discriminate].
    destruct (chan_recv (spawnWorkerCh (self w))) as [[v ch'] |] eqn:Hr.
    + destruct (isClosed (self w)) eqn:Hc.
      * rewrite (spawnLoop_iteration_closed w v ch' Hr Hc) in Hs. injection Hs as <-.
        exists []. split; [cbn; now rewrite app_nil_r | cbn; lia].
      * rewrite (spawnLoop_iteration_open w v ch' Hr Hc) in Hs. injection Hs as <-.
        cbn [emit snd trace]. rewrite launched_trace. cbn [modifyPool snd trace].
        rewrite <- app_assoc. eexists. split; [reflexivity |].
        rewrite !count_events_app, !count_repeat_EvGo by reflexivity. cbn. lia.
    + cbv [spawnLoop_iteration bind getPool] in Hs. rewrite Hr in Hs. discriminate.
  - destruct (workers w); [discriminate |].
    destruct (q_Recv (jobQueue (self w))) as [[[[| v] |] q'] |]; [| | | discriminate];
      apply after_worker_Next in Hs; destruct Hs as [<- Hst].
    + rewrite worker_step_returning_job. cbn [snd trace modifyPool].
      eexists. split; [reflexivity | cbn; lia].
    + revert Hst. rewrite worker_step_panicking_job.
      cbn [modifyPool snd self panicHandler set_jobQueue trace].
      destruct (panicHandler (self w)) as [h |]; [destruct (h v) |];
        cbn [fst snd trace]; intros Hst;
        eexists; (split; [reflexivity | cbn; lia]).
    + rewrite worker_step_nil_job. cbn [snd trace modifyPool].
      exists []. split; [now rewrite app_nil_r | cbn; lia].
  - destruct (workers w); [discriminate |].
    apply after_worker_Next in Hs. destruct Hs as [<- _].
    rewrite worker_step_TimerFired. destruct (_ || _); cbn [snd trace];
      exists []; (split; [now rewrite app_nil_r | cbn; lia]).
  - destruct (dt <? 0); [discriminate |]. injection Hs as <-.
    exists []. split; [cbn; now rewrite app_nil_r | cbn; lia].
Qed.

(** X15. The panic handler is never called for anything but a task's
    panic, and at most once for each: in every reachable world the
    trace holds no more handler calls than calls of tasks that
    panicked, and the trace only ever grows. *)
Theorem X15_handler_calls_accounted : forall w,
  reachable w ->
  (count_events is_handler_call (trace w) <= count_events is_task_panic (trace w))%nat
  /\ (forall a w',
        step a w = Next w' ->
        exists suffix, trace w' = trace w ++ suffix).
Proof.
  intros w Hr. split.
  - induction Hr as [now q | a w w' _ IH Hs]; [cbn; lia |].
    destruct (step_trace_accounting a w w' Hs) as (suffix & -> & Hle).
    rewrite !count_events_app. lia.
  - intros a w' Hs. destruct (step_trace_accounting a w w' Hs) as (suffix & Ht & _).
    now exists suffix.
Qed.

End MoreFacts.

(** ** The further properties at concrete pools *)

Lemma X3_trySpawn_reaches_target_witness :
  workerCount (self (snd (trySpawn fresh_pool))) = 5
  /\ workers (snd (trySpawn fresh_pool)) = 5%nat.
Proof.
  assert (Hd : 0 <= q_Count (jobQueue (self fresh_pool)) <= max_int)
    by (unfold max_int; cbn; lia).
  assert (Hs : int_range (workerSizeStandBy (self fresh_pool)))
    by (unfold int_range, min_int, max_int; cbn; lia).
  assert (Hc : int_range (workerCount (self fresh_pool)))
    by (unfold int_range, min_int, max_int; cbn; lia).
  destruct (X3_trySpawn_reaches_target fresh_pool Hd Hs Hc) as (H1 & H2 & _).
  split; [exact H1 | exact H2].
Defined.

Lemma signalled_pool_reachable : reachable signalled_pool.
Proof.
  exact (reachable_step (CallSchedule (Some Returns)) fresh_pool signalled_pool
           fresh_pool_reachable eq_refl).
Qed.

Lemma closed_pool_reachable : reachable closed_pool.
Proof.
  exact (reachable_step CallClose signalled_pool closed_pool
           signalled_pool_reachable eq_refl).
Qed.


Lemma uncapped_pool_reachable : reachable uncapped_pool.
Proof.
  exact (reachable_step (CallSetWorkerSizeMaximum 0) warm_pool uncapped_pool
           warm_pool_reachable eq_refl).
Qed.

Lemma X4_spawn_turn_witness :
  exists w',
    step SpawnLoopTurn signalled_pool = Next w'
    /\ workerCount (self w') = 5
    /\ step SpawnLoopTurn w' = NotEnabled.
Proof.
  assert (H1 : isClosed (self signalled_pool) = false) by (vm_compute; reflexivity).
  assert (H2 : chanBuf (spawnWorkerCh (self signalled_pool)) <> [])
    by (vm_compute; discriminate).
  assert (H3 : 0 <= q_Count (jobQueue (self signalled_pool)) <= max_int)
    by (vm_compute; split; discriminate).
  assert (H4 : int_range (workerSizeStandBy (self signalled_pool)))
    by (vm_compute; split; discriminate).
  assert (H5 : Z.of_nat (workers signalled_pool) <= max_int)
    by (vm_compute; discriminate).
  destruct (X4_spawn_turn signalled_pool signalled_pool_reachable H1 H2 H3 H4 H5)
    as (w' & Hs & Hc & _ & _ & Hn & _).
  exists w'. split; [exact Hs |]. split; [| exact Hn].
  rewrite Hc. vm_compute. reflexivity.
Defined.

Lemma X5_signals_coalesce_witness :
  exists w1,
    run (map CallSchedule [Some Returns; None; Some (Panics "boom"%string)]) fresh_pool
      = Next w1
    /\ count_events is_signal (trace w1) = 3%nat
    /\ chanBuf (spawnWorkerCh (self w1)) = [1].
Proof.
  assert (H1 : isClosed (self fresh_pool) = false) by reflexivity.
  assert (H2 : [Some Returns; None; Some (Panics "boom"%string)] <> @nil func)
    by discriminate.
  destruct (X5_signals_coalesce _ fresh_pool fresh_pool_reachable H1 H2)
    as (w1 & w2 & Hr & Hn & Hb & _).
  exists w1. split; [exact Hr |]. split; [exact Hn | exact Hb].
Defined.

Lemma X6_spawn_loop_stops_for_good_witness :
  exists w',
    step SpawnLoopTurn closed_pool = Next w'
    /\ controller w' = Stopped
    /\ workers w' = workers closed_pool.
Proof.
  destruct (X6_spawn_loop_stops_for_good closed_pool closed_pool_reachable) as [H _].
  assert (H1 : isClosed (self closed_pool) = true) by (vm_compute; reflexivity).
  assert (H2 : controller closed_pool = Running) by (vm_compute; reflexivity).
  assert (H3 : chanBuf (spawnWorkerCh (self closed_pool)) <> [])
    by (vm_compute; discriminate).
  destruct (H H1 H2 H3) as (w' & Hs & Hc & Hw & _).
  exists w'. split; [exact Hs |]. split; [exact Hc | exact Hw].
Defined.

Lemma X7_close_leaves_spawn_loop_waiting_witness :
  exists w',
    run [CallClose; CallSchedule (Some Returns); CallPreAllocWorkerSize 2;
         WorkerTimerFires; CallSetPanicHandler None] fresh_pool = Next w'
    /\ controller w' = Running
    /\ step SpawnLoopTurn w' = NotEnabled.
Proof.
  destruct (run [CallClose; CallSchedule (Some Returns); CallPreAllocWorkerSize 2;
                 WorkerTimerFires; CallSetPanicHandler None] fresh_pool)
    as [w' | |] eqn:Hrun; [| vm_compute in Hrun; discriminate ..].
  destruct (X7_close_leaves_spawn_loop_waiting
              [CallSchedule (Some Returns); CallPreAllocWorkerSize 2;
               WorkerTimerFires; CallSetPanicHandler None]
              fresh_pool w' eq_refl eq_refl Hrun)
    as (_ & _ & Hc & Hn).
  exists w'. split; [reflexivity |]. split; [exact Hc | exact Hn].
Defined.


Lemma X9_nonpositive_maximum_retires_idle_witness :
  workerSizeStandBy (self uncapped_pool) = 5
  /\ workers uncapped_pool = 5%nat
  /\ exists w', step WorkerTimerFires uncapped_pool = Next w' /\ workers w' = 4%nat.
Proof.
  assert (H1 : Z.of_nat (workers uncapped_pool) <= max_int) by (vm_compute; discriminate).
  assert (H2 : (1 <= workers uncapped_pool)%nat)
    by (apply Nat.leb_le; vm_compute; reflexivity).
  assert (H3 : workerSizeMaximum (self uncapped_pool) <= 0) by (vm_compute; discriminate).
  destruct (X9_nonpositive_maximum_retires_idle uncapped_pool uncapped_pool_reachable
              H1 H2 H3) as (w' & Hs & Hw & _).
  split; [reflexivity |]. split; [reflexivity |].
  exists w'. split; [exact Hs | exact Hw].
Defined.

Lemma X10_PreAllocWorkerSize_twice_witness :
  workerCount (self (snd (PreAllocWorkerSize 8 (snd (PreAllocWorkerSize 3 fresh_pool))))) = 8
  /\ PreAllocWorkerSize 2 (snd (PreAllocWorkerSize 3 fresh_pool)) =
       (tt, snd (PreAllocWorkerSize 3 fresh_pool)).
Proof.
  assert (Hc : int_range (workerCount (self fresh_pool))) by (vm_compute; split; discriminate).
  assert (H3 : 3 <= max_int) by (vm_compute; discriminate).
  assert (H8 : 8 <= max_int) by (vm_compute; discriminate).
  assert (H2 : 2 <= max_int) by (vm_compute; discriminate).
  split.
  - exact (proj1 (X10_PreAllocWorkerSize_twice 3 8 fresh_pool Hc H3 H8)).
  - apply (proj2 (X10_PreAllocWorkerSize_twice 3 2 fresh_pool Hc H3 H2)).
    vm_compute. discriminate.
Defined.

Lemma X11_worker_runs_in_order_witness :
  fst (worker_thread (map RecvJob [Some Returns; None; Some Returns]) warm_pool) = Active
  /\ trace (snd (worker_thread (map RecvJob [Some Returns; None; Some Returns]) warm_pool))
     = trace warm_pool ++ [EvRun Returns; EvRun Returns].
Proof.
  destruct (X11_worker_runs_in_order [Some Returns; None; Some Returns] [] warm_pool eq_refl)
    as (H1 & H2 & _).
  split; [exact H1 | exact H2].
Defined.

Lemma X13_raising_standby_spawns_witness :
  exists w1 w2,
    step (CallSetWorkerSizeStandBy 8) warm_pool = Next w1
    /\ step SpawnLoopTurn w1 = Next w2
    /\ 8 <= workerCount (self w2).
Proof.
  assert (H1 : isClosed (self warm_pool) = false) by (vm_compute; reflexivity).
  assert (H2 : workerCount (self warm_pool) < 8) by (vm_compute; reflexivity).
  assert (H3 : int_range 8) by (vm_compute; split; discriminate).
  assert (H4 : workerSizeMaximum (self warm_pool) <= 0 \/ 8 <= workerSizeMaximum (self warm_pool))
    by (right; vm_compute; discriminate).
  assert (H5 : 0 <= q_Count (jobQueue (self warm_pool)) <= max_int)
    by (vm_compute; split; discriminate).
  destruct (X13_raising_standby_spawns 8 warm_pool warm_pool_reachable H1 H2 H3 H4 H5)
    as (w1 & w2 & Hs1 & _ & Hs2 & Hv & _).
  exists w1, w2. split; [exact Hs1 |]. split; [exact Hs2 | exact Hv].
Defined.

Lemma X14_Invoke_drops_the_error_witness :
  Invoke (NewDefaultInvokable (Some 0%nat) (Some (fun _ : nat => Returns))) 7%nat
         [closed_pool] = Some [closed_pool]
  /\ InvokeWithTimeout (NewDefaultInvokable (Some 0%nat) (Some (fun _ : nat => Returns)))
        7%nat (10 * Millisecond) [closed_pool]
      = Some (Some ErrWorkerPoolIsClosed, [closed_pool]).
Proof.
  assert (Hc : isClosed (self closed_pool) = true) by (vm_compute; reflexivity).
  destruct (X14_Invoke_drops_the_error nat
              (NewDefaultInvokable (Some 0%nat) (Some (fun _ : nat => Returns)))
              7%nat (10 * Millisecond) 0%nat [closed_pool] closed_pool eq_refl eq_refl)
    as (_ & H & _).
  exact (H Hc).
Defined.

Lemma recovered_pool_reachable : reachable recovered_pool.
Proof.
  apply (run_reachable [CallSchedule (Some (Panics "boom"%string)); WorkerReceives]
           warm_pool recovered_pool warm_pool_reachable).
  vm_compute. reflexivity.
Qed.

Lemma X15_handler_calls_accounted_witness :
  count_events is_handler_call (trace recovered_pool) = 1%nat
  /\ count_events is_task_panic (trace recovered_pool) = 1%nat
  /\ (count_events is_handler_call (trace recovered_pool)
      <= count_events is_task_panic (trace recovered_pool))%nat.
Proof.
  split; [vm_compute; reflexivity |]. split; [vm_compute; reflexivity |].
  exact (proj1 (X15_handler_calls_accounted recovered_pool recovered_pool_reachable)).
Defined.
